(** * database-utils: identifier resolution over the SQLite securities master

    A shallow embedding of
      - [database_utils/core/identifier.py]   (detector and resolver),
      - [database_utils/core/repositories/security.py] (create, add_identifier),
      - [database_utils/core/connection.py]   (lazy connect, execute, commit),
      - [database_utils/core/schema.py]       (constraints, seeding, best_prices)
    together with the properties the specification states about them. *)

From Stdlib Require Import ZArith List String Ascii Bool Lia QArith.
From Stdlib Require Import Permutation Sorted.
Import ListNotations.
Local Open Scope string_scope.
Local Open Scope Z_scope.

(* ===================================================================== *)
(** * Python values used by the code *)
(* ===================================================================== *)

(** [IdentifierType] is a [Literal[...]] alias in [types.py]: at run time a
    plain [str], and every entry point accepts [IdentifierType | str]. *)
Definition IdentifierType := string.
Definition SecurityId := Z.
Definition SourceId := Z.

(** A [datetime.date], written as the number YYYYMMDD (2023-12-31 is
    20231231).  The sqlite3 adapter stores [date.isoformat()], a text of
    fixed width, and SQLite compares these texts byte by byte; that order
    is the numeric order of this encoding. *)
Definition date := Z.

Definition ISIN : IdentifierType := "ISIN".
Definition CUSIP : IdentifierType := "CUSIP".
Definition SEDOL : IdentifierType := "SEDOL".
Definition TICKER_BBG : IdentifierType := "TICKER_BBG".
Definition TICKER_YAHOO : IdentifierType := "TICKER_YAHOO".
Definition JP_CODE : IdentifierType := "JP_CODE".
Definition FIGI : IdentifierType := "FIGI".

(* ===================================================================== *)
(** * Regular expressions of [IDENTIFIER_PATTERNS] *)
(* ===================================================================== *)

Module Re.

(** The five patterns are all of the form [^ a1{n1} ... ak{nk} $] where
    every [ai] is a literal character or a bracket class of ranges. *)
Inductive atom : Type :=
| Lit (c : ascii)
| Class (ranges : list (ascii * ascii)).

Definition Pattern := list (atom * nat).

Definition in_range (lo hi c : ascii) : bool :=
  ((N_of_ascii lo <=? N_of_ascii c) && (N_of_ascii c <=? N_of_ascii hi))%N.

Definition accepts (a : atom) (c : ascii) : bool :=
  match a with
  | Lit x => Ascii.eqb x c
  | Class ranges => existsb (fun r => in_range (fst r) (snd r) c) ranges
  end.

(** [a{n}] at the head of [s]; the rest of the subject on success. *)
Fixpoint match_repeat (a : atom) (n : nat) (s : string) : option string :=
  match n with
  | O => Some s
  | S n' =>
      match s with
      | EmptyString => None
      | String c rest => if accepts a c then match_repeat a n' rest else None
      end
  end.

Fixpoint match_items (p : Pattern) (s : string) : option string :=
  match p with
  | [] => Some s
  | (a, n) :: p' =>
      match match_repeat a n s with
      | Some rest => match_items p' rest
      | None => None
      end
  end.

Definition newline : ascii := ascii_of_nat 10.

(** Python's [$] without [re.MULTILINE]: the end of the subject, or the
    position just before a newline that ends the subject. *)
Definition at_dollar (rest : string) : bool :=
  match rest with
  | EmptyString => true
  | String c EmptyString => Ascii.eqb c newline
  | _ => false
  end.

(** [pattern.match(s)] read as a truth value. *)
Definition re_match (p : Pattern) (s : string) : bool :=
  match match_items p s with
  | Some rest => at_dollar rest
  | None => false
  end.

(** The language of the part of a pattern between [^] and [$]. *)
Inductive repeat_lang (a : atom) : nat -> string -> Prop :=
| repeat_zero : repeat_lang a O EmptyString
| repeat_more : forall n c s,
    accepts a c = true -> repeat_lang a n s ->
    repeat_lang a (S n) (String c s).

Inductive lang : Pattern -> string -> Prop :=
| lang_nil : lang [] EmptyString
| lang_cons : forall a n p s1 s2,
    repeat_lang a n s1 -> lang p s2 -> lang ((a, n) :: p) (s1 ++ s2).

(** What a subject has to look like for [^ p $] to match it. *)
Definition full_match (p : Pattern) (s : string) : Prop :=
  exists body, lang p body /\ (s = body \/ s = body ++ String newline EmptyString).

Definition upper : ascii * ascii := ("A"%char, "Z"%char).
Definition digit : ascii * ascii := ("0"%char, "9"%char).

End Re.

(* ===================================================================== *)
(** * identifier.py: module constants and the detector *)
(* ===================================================================== *)

Definition dict (K V : Type) := list (K * V).

(** [d.get(k)] on a dict with string keys. *)
Fixpoint dict_get {V : Type} (d : dict string V) (k : string) : option V :=
  match d with
  | [] => None
  | (k', v) :: d' => if String.eqb k' k then Some v else dict_get d' k
  end.

Definition IDENTIFIER_PATTERNS : dict IdentifierType Re.Pattern :=
  [ (FIGI, [ (Re.Lit "B", 1); (Re.Lit "B", 1); (Re.Lit "G", 1);
             (Re.Class [Re.upper; Re.digit], 9) ]%nat);
    (ISIN, [ (Re.Class [Re.upper], 2); (Re.Class [Re.upper; Re.digit], 9);
             (Re.Class [Re.digit], 1) ]%nat);
    (CUSIP, [ (Re.Class [Re.upper; Re.digit], 9) ]%nat);
    (SEDOL, [ (Re.Class [Re.upper; Re.digit], 7) ]%nat);
    (JP_CODE, [ (Re.Class [Re.digit], 4) ]%nat) ].

Definition DETECTION_ORDER : list IdentifierType :=
  [FIGI; ISIN; CUSIP; SEDOL; JP_CODE].

Definition TICKER_TYPES : list IdentifierType :=
  [TICKER_YAHOO; TICKER_BBG].

(** The [for id_type in DETECTION_ORDER] loop of [detect_identifier_type]. *)
Fixpoint detect_loop (order : list IdentifierType) (identifier_value : string)
  : option IdentifierType :=
  match order with
  | [] => None
  | id_type :: rest =>
      match dict_get IDENTIFIER_PATTERNS id_type with
      | Some pattern =>
          if Re.re_match pattern identifier_value then Some id_type
          else detect_loop rest identifier_value
      | None => detect_loop rest identifier_value
      end
  end.

Definition detect_identifier_type (identifier_value : string)
  : option IdentifierType :=
  match identifier_value with
  | EmptyString => None
  | _ => detect_loop DETECTION_ORDER identifier_value
  end.

(** [id_type] has a pattern and the pattern matches [s]. *)
Definition matches (id_type : IdentifierType) (s : string) : Prop :=
  exists pattern,
    dict_get IDENTIFIER_PATTERNS id_type = Some pattern /\
    Re.re_match pattern s = true.

(* ===================================================================== *)
(** * schema.py: the tables *)
(* ===================================================================== *)

(** Rows carry the columns the code reads or writes; the [created_at] and
    [updated_at] timestamps, which no statement below inspects, are left
    out.  REAL columns hold the [Decimal] of [types.py], here a [Q]. *)

Record Security : Type := mkSecurity {
  security_id : SecurityId;
  name : string;
  description : option string;
  asset_class : option string;
  currency : option string }.

Record IdentifierTypeRow : Type := mkIdentifierTypeRow {
  type_code : string;
  type_name : string;
  it_description : option string;
  pattern : option string }.

Record SecurityIdentifier : Type := mkSecurityIdentifier {
  si_id : Z;
  si_security_id : SecurityId;
  identifier_type : IdentifierType;
  identifier_value : string;
  valid_from : option date;
  valid_to : option date;
  is_primary : Z }.

Record DataSource : Type := mkDataSource {
  source_id : SourceId;
  source_code : string;
  source_type : string;
  ds_description : option string;
  priority : Z;
  is_active : Z }.

Record PriceData : Type := mkPriceData {
  pd_id : Z;
  pd_security_id : SecurityId;
  pd_source_id : SourceId;
  price_date : date;
  open : option Q;
  high : option Q;
  low : option Q;
  close : Q;
  volume : option Z;
  adjusted_close : option Q }.

Record FactorData : Type := mkFactorData {
  fd_id : Z;
  fd_security_id : SecurityId;
  fd_factor_id : Z;
  fd_source_id : SourceId;
  as_of_date : date;
  value_numeric : option Q;
  value_text : option string }.

(** One SQLite database.  A table is the list of its rows in rowid order;
    [seq_*] is the [sqlite_sequence] entry of an AUTOINCREMENT key.
    [has_schema] tells whether [initialize_schema] has created the tables
    (before that every statement fails with "no such table"). *)
Record Database : Type := mkDatabase {
  has_schema : bool;
  securities : list Security;
  seq_securities : Z;
  identifier_types : list IdentifierTypeRow;
  security_identifiers : list SecurityIdentifier;
  seq_security_identifiers : Z;
  data_sources : list DataSource;
  seq_data_sources : Z;
  price_data : list PriceData;
  factor_data : list FactorData }.

Definition empty_database : Database :=
  mkDatabase false [] 0 [] [] 0 [] 0 [] [].

Definition with_schema (db : Database) : Database :=
  mkDatabase true (securities db) (seq_securities db) (identifier_types db)
    (security_identifiers db) (seq_security_identifiers db)
    (data_sources db) (seq_data_sources db) (price_data db) (factor_data db).

Definition with_securities (rows : list Security) (seq : Z) (db : Database)
  : Database :=
  mkDatabase (has_schema db) rows seq (identifier_types db)
    (security_identifiers db) (seq_security_identifiers db)
    (data_sources db) (seq_data_sources db) (price_data db) (factor_data db).

Definition with_identifier_types (rows : list IdentifierTypeRow)
  (db : Database) : Database :=
  mkDatabase (has_schema db) (securities db) (seq_securities db) rows
    (security_identifiers db) (seq_security_identifiers db)
    (data_sources db) (seq_data_sources db) (price_data db) (factor_data db).

Definition with_security_identifiers (rows : list SecurityIdentifier)
  (seq : Z) (db : Database) : Database :=
  mkDatabase (has_schema db) (securities db) (seq_securities db)
    (identifier_types db) rows seq
    (data_sources db) (seq_data_sources db) (price_data db) (factor_data db).

Definition with_data_sources (rows : list DataSource) (seq : Z)
  (db : Database) : Database :=
  mkDatabase (has_schema db) (securities db) (seq_securities db)
    (identifier_types db) (security_identifiers db)
    (seq_security_identifiers db) rows seq (price_data db) (factor_data db).

(** AUTOINCREMENT: one more than the largest rowid the table ever held. *)
Definition next_rowid (seq : Z) (ids : list Z) : Z :=
  fold_right Z.max seq ids + 1.

(* ===================================================================== *)
(** * SQL: ORDER BY ... LIMIT 1 *)
(* ===================================================================== *)

Section OrderBy.
Context {A : Type}.
(** [before x y]: the ORDER BY clause puts [x] strictly ahead of [y]. *)
Variable before : A -> A -> bool.

Fixpoint insert_row (x : A) (sorted : list A) : list A :=
  match sorted with
  | [] => [x]
  | y :: rest => if before y x then y :: insert_row x rest else x :: sorted
  end.

(** A stable sort: rows the clause does not tell apart keep table order. *)
Definition order_by (rows : list A) : list A :=
  fold_right insert_row [] rows.

End OrderBy.

Definition limit_1 {A : Type} (rows : list A) : list A :=
  match rows with
  | [] => []
  | r :: _ => [r]
  end.

(* ===================================================================== *)
(** * SQL: the statements the repository and the resolver execute *)
(* ===================================================================== *)

Inductive sqlite3_Error : Type :=
| NoSuchTable (table : string)
| UniqueConstraintFailed (columns : string)
| ForeignKeyConstraintFailed.

Inductive Statement : Type :=
(** [resolve]: SELECT security_id FROM security_identifiers WHERE ...
    ORDER BY valid_from DESC NULLS LAST LIMIT 1 *)
| SelectResolve (ty : IdentifierType) (value : string) (as_of : date)
(** [add_identifier]: the duplicate check *)
| SelectDuplicate (ty : IdentifierType) (value : string)
    (vfrom : option date)
(** [create]: INSERT INTO securities *)
| InsertSecurity (nm : string) (descr aclass curr : option string)
(** [add_identifier]: INSERT INTO security_identifiers *)
| InsertIdentifier (sid : SecurityId) (ty : IdentifierType) (value : string)
    (primary : Z) (vfrom vto : option date).

(** A [sqlite3.Row] of the two SELECTs: the single column [security_id]. *)
Record Row : Type := mkRow { row_security_id : SecurityId }.

(** [lastrowid] is read after an INSERT only. *)
Record Cursor : Type := mkCursor {
  rows : list Row;
  lastrowid : Z }.

(** identifier_type = ? AND identifier_value = ? *)
Definition same_identifier (ty : IdentifierType) (value : string)
  (r : SecurityIdentifier) : bool :=
  String.eqb (identifier_type r) ty && String.eqb (identifier_value r) value.

(** (valid_from IS NULL OR valid_from <= ?) AND (valid_to IS NULL OR valid_to > ?) *)
Definition contains_date (as_of : date) (r : SecurityIdentifier) : bool :=
  match valid_from r with None => true | Some f => f <=? as_of end &&
  match valid_to r with None => true | Some t => as_of <? t end.

(** ORDER BY valid_from DESC NULLS LAST *)
Definition valid_from_desc_nulls_last (a b : SecurityIdentifier) : bool :=
  match valid_from a, valid_from b with
  | Some x, Some y => y <? x
  | Some _, None => true
  | None, _ => false
  end.

Definition resolve_candidates (ty : IdentifierType) (value : string)
  (as_of : date) (db : Database) : list SecurityIdentifier :=
  filter (fun r => same_identifier ty value r && contains_date as_of r)
    (security_identifiers db).

Definition select_resolve (ty : IdentifierType) (value : string)
  (as_of : date) (db : Database) : list Row :=
  map (fun r => mkRow (si_security_id r))
    (limit_1 (order_by valid_from_desc_nulls_last
                (resolve_candidates ty value as_of db))).

(** (valid_from IS NULL OR valid_from = ?): with a NULL parameter the
    comparison [valid_from = NULL] is never true.  The SELECT has no
    ORDER BY; its rows are taken in table order. *)
Definition duplicate_candidate (ty : IdentifierType) (value : string)
  (vfrom : option date) (r : SecurityIdentifier) : bool :=
  same_identifier ty value r &&
  match valid_from r, vfrom with
  | None, _ => true
  | Some f, Some g => f =? g
  | Some _, None => false
  end.

Definition select_duplicate (ty : IdentifierType) (value : string)
  (vfrom : option date) (db : Database) : list Row :=
  map (fun r => mkRow (si_security_id r))
    (filter (duplicate_candidate ty value vfrom) (security_identifiers db)).

Definition insert_security (nm : string) (descr aclass curr : option string)
  (db : Database) : Cursor * Database :=
  let new_id := next_rowid (seq_securities db)
                  (map security_id (securities db)) in
  (mkCursor [] new_id,
   with_securities (securities db ++ [mkSecurity new_id nm descr aclass curr])
     new_id db).

(** UNIQUE (identifier_type, identifier_value, valid_from): two NULLs
    never collide. *)
Definition unique_collision (ty : IdentifierType) (value : string)
  (vfrom : option date) (r : SecurityIdentifier) : bool :=
  same_identifier ty value r &&
  match valid_from r, vfrom with
  | Some f, Some g => f =? g
  | _, _ => false
  end.

Definition insert_identifier (sid : SecurityId) (ty : IdentifierType)
  (value : string) (primary : Z) (vfrom vto : option date) (db : Database)
  : sqlite3_Error + Cursor * Database :=
  if existsb (unique_collision ty value vfrom) (security_identifiers db)
  then inl (UniqueConstraintFailed
              "security_identifiers.identifier_type, security_identifiers.identifier_value, security_identifiers.valid_from")
  else if negb (existsb (fun s => security_id s =? sid) (securities db))
  then inl ForeignKeyConstraintFailed
  else if negb (existsb (fun t => String.eqb (type_code t) ty)
                  (identifier_types db))
  then inl ForeignKeyConstraintFailed
  else
    let new_id := next_rowid (seq_security_identifiers db)
                    (map si_id (security_identifiers db)) in
    inr (mkCursor [] new_id,
         with_security_identifiers
           (security_identifiers db ++
              [mkSecurityIdentifier new_id sid ty value vfrom vto primary])
           new_id db).

(** [sqlite3.Connection.execute]: the result, or the [sqlite3.Error]. *)
Definition run_statement (sql : Statement) (db : Database)
  : sqlite3_Error + Cursor * Database :=
  match sql with
  | SelectResolve ty value as_of =>
      if has_schema db
      then inr (mkCursor (select_resolve ty value as_of db) 0, db)
      else inl (NoSuchTable "security_identifiers")
  | SelectDuplicate ty value vfrom =>
      if has_schema db
      then inr (mkCursor (select_duplicate ty value vfrom db) 0, db)
      else inl (NoSuchTable "security_identifiers")
  | InsertSecurity nm descr aclass curr =>
      if has_schema db
      then inr (insert_security nm descr aclass curr db)
      else inl (NoSuchTable "securities")
  | InsertIdentifier sid ty value primary vfrom vto =>
      if has_schema db
      then insert_identifier sid ty value primary vfrom vto db
      else inl (NoSuchTable "security_identifiers")
  end.

(* ===================================================================== *)
(** * schema.py: default data and [initialize_schema] *)
(* ===================================================================== *)

Definition DEFAULT_IDENTIFIER_TYPES : list IdentifierTypeRow :=
  [ mkIdentifierTypeRow "ISIN" "International Securities Identification Number"
      (Some "12-character alphanumeric code")
      (Some "^[A-Z]{2}[A-Z0-9]{9}[0-9]$");
    mkIdentifierTypeRow "CUSIP"
      "Committee on Uniform Securities Identification Procedures"
      (Some "9-character alphanumeric code") (Some "^[A-Z0-9]{9}$");
    mkIdentifierTypeRow "SEDOL" "Stock Exchange Daily Official List"
      (Some "7-character alphanumeric code") (Some "^[A-Z0-9]{7}$");
    mkIdentifierTypeRow "TICKER_BBG" "Bloomberg Ticker"
      (Some "Bloomberg ticker symbol") None;
    mkIdentifierTypeRow "TICKER_YAHOO" "Yahoo Finance Ticker"
      (Some "Yahoo Finance ticker symbol") None;
    mkIdentifierTypeRow "JP_CODE" "Japanese Security Code"
      (Some "4-digit Japanese security code") (Some "^[0-9]{4}$");
    mkIdentifierTypeRow "FIGI" "Financial Instrument Global Identifier"
      (Some "12-character identifier") (Some "^[A-Z]{3}[A-Z0-9]{9}$") ].

(** (source_code, source_type, description, priority) *)
Definition DEFAULT_DATA_SOURCES : list (string * string * string * Z) :=
  [ ("YFINANCE", "API", "Yahoo Finance API", 10);
    ("EXCEL_IMPORT", "FILE", "Excel file import", 50);
    ("MANUAL_ENTRY", "MANUAL", "Manual data entry", 100);
    ("DERIVED_CALC", "DERIVED", "Calculated/derived values", 200) ].

(** INSERT OR IGNORE INTO identifier_types: [type_code] is the primary key. *)
Definition insert_or_ignore_identifier_type (db : Database)
  (row : IdentifierTypeRow) : Database :=
  if existsb (fun t => String.eqb (type_code t) (type_code row))
       (identifier_types db)
  then db
  else with_identifier_types (identifier_types db ++ [row]) db.

(** INSERT OR IGNORE INTO data_sources: [source_code] is UNIQUE;
    [is_active] takes its default 1. *)
Definition insert_or_ignore_data_source (db : Database)
  (row : string * string * string * Z) : Database :=
  let '(code, stype, descr, prio) := row in
  if existsb (fun s => String.eqb (source_code s) code) (data_sources db)
  then db
  else
    let new_id := next_rowid (seq_data_sources db)
                    (map source_id (data_sources db)) in
    with_data_sources
      (data_sources db ++ [mkDataSource new_id code stype (Some descr) prio 1])
      new_id db.

(** CREATE TABLE / INDEX / VIEW IF NOT EXISTS, the two [executemany], and
    the final [conn.commit()] (the caller below writes the result to the
    file). *)
Definition initialize_schema (db : Database) : Database :=
  fold_left insert_or_ignore_data_source DEFAULT_DATA_SOURCES
    (fold_left insert_or_ignore_identifier_type DEFAULT_IDENTIFIER_TYPES
       (with_schema db)).

(* ===================================================================== *)
(** * schema.py: the [best_prices] view *)
(* ===================================================================== *)

Record BestPrice : Type := mkBestPrice {
  bp_security_id : SecurityId;
  bp_price_date : date;
  bp_open : option Q;
  bp_high : option Q;
  bp_low : option Q;
  bp_close : Q;
  bp_volume : option Z;
  bp_adjusted_close : option Q;
  bp_source_code : string;
  bp_source_priority : Z }.

(** FROM price_data p JOIN data_sources ds ON p.source_id = ds.source_id *)
Definition price_join (db : Database) : list (PriceData * DataSource) :=
  flat_map
    (fun p => map (fun ds => (p, ds))
                (filter (fun ds => pd_source_id p =? source_id ds)
                   (data_sources db)))
    (price_data db).

(** ds.is_active = 1 *)
Definition active (ds : DataSource) : bool := is_active ds =? 1.

Definition same_group (p : PriceData) (q : PriceData * DataSource) : bool :=
  (pd_security_id (fst q) =? pd_security_id p) &&
  (price_date (fst q) =? price_date p).

(** ORDER BY ds2.priority ASC *)
Definition priority_asc (a b : PriceData * DataSource) : bool :=
  priority (snd a) <? priority (snd b).

(** The rows the correlated subquery ranges over for the outer row [p]. *)
Definition group_rows (db : Database) (p : PriceData)
  : list (PriceData * DataSource) :=
  filter (fun q => same_group p q && active (snd q)) (price_join db).

(** (SELECT p2.id ... ORDER BY ds2.priority ASC LIMIT 1); [None] is the
    NULL of an empty result. *)
Definition best_price_id (db : Database) (p : PriceData) : option Z :=
  match limit_1 (order_by priority_asc (group_rows db p)) with
  | [] => None
  | q :: _ => Some (pd_id (fst q))
  end.

(** WHERE ds.is_active = 1 AND p.id = (subquery) *)
Definition best_price_row (db : Database) (q : PriceData * DataSource)
  : bool :=
  active (snd q) &&
  match best_price_id db (fst q) with
  | Some i => pd_id (fst q) =? i
  | None => false
  end.

Definition best_price_of (q : PriceData * DataSource) : BestPrice :=
  let (p, ds) := q in
  mkBestPrice (pd_security_id p) (price_date p) (open p) (high p) (low p)
    (close p) (volume p) (adjusted_close p) (source_code ds) (priority ds).

(** The (price row, source) pairs the view is made of, and the view. *)
Definition best_price_pairs (db : Database) : list (PriceData * DataSource) :=
  filter (best_price_row db) (price_join db).

Definition best_prices (db : Database) : list BestPrice :=
  map best_price_of (best_price_pairs db).

(** Modelled from the spec: an administrator deactivating a source,
    UPDATE data_sources SET is_active = 0 WHERE source_id = ?.  The
    repository has no function for it; the overlay scenario of the
    specification uses it. *)
Definition deactivate_source (sid : SourceId) (db : Database) : Database :=
  with_data_sources
    (map (fun ds =>
            if source_id ds =? sid
            then mkDataSource (source_id ds) (source_code ds) (source_type ds)
                   (ds_description ds) (priority ds) 0
            else ds)
       (data_sources db))
    (seq_data_sources db) db.

(* ===================================================================== *)
(** * exceptions.py and the exceptions of connection.py *)
(* ===================================================================== *)

Inductive ExceptionClass : Type :=
| Exception_cls
| AssertionError_cls
| ValueError_cls
| DatabaseError_cls
| ConnectionError_cls
| TransactionError_cls
| DatabaseUtilsError_cls
| IdentifierNotFoundError_cls
| DuplicateSecurityError_cls
| ValidationError_cls.

(** A raised exception with the attributes its constructor stores. *)
Inductive Exception : Type :=
| AssertionError
| ValueError (msg : string)
| DatabaseError (cause : sqlite3_Error)
| ConnectionError (cause : sqlite3_Error)
| TransactionError (cause : Exception)
| IdentifierNotFoundError (ty : string) (value : string)
| DuplicateSecurityError (ty : string) (value : string)
| ValidationError (field : string) (reason : string).

Definition class_of (e : Exception) : ExceptionClass :=
  match e with
  | AssertionError => AssertionError_cls
  | ValueError _ => ValueError_cls
  | DatabaseError _ => DatabaseError_cls
  | ConnectionError _ => ConnectionError_cls
  | TransactionError _ => TransactionError_cls
  | IdentifierNotFoundError _ _ => IdentifierNotFoundError_cls
  | DuplicateSecurityError _ _ => DuplicateSecurityError_cls
  | ValidationError _ _ => ValidationError_cls
  end.

(** The class statements: each class with its chain of bases. *)
Definition mro (c : ExceptionClass) : list ExceptionClass :=
  match c with
  | Exception_cls => [Exception_cls]
  | AssertionError_cls => [AssertionError_cls; Exception_cls]
  | ValueError_cls => [ValueError_cls; Exception_cls]
  | DatabaseError_cls => [DatabaseError_cls; Exception_cls]
  | ConnectionError_cls =>
      [ConnectionError_cls; DatabaseError_cls; Exception_cls]
  | TransactionError_cls =>
      [TransactionError_cls; DatabaseError_cls; Exception_cls]
  | DatabaseUtilsError_cls => [DatabaseUtilsError_cls; Exception_cls]
  | IdentifierNotFoundError_cls =>
      [IdentifierNotFoundError_cls; DatabaseUtilsError_cls; Exception_cls]
  | DuplicateSecurityError_cls =>
      [DuplicateSecurityError_cls; DatabaseUtilsError_cls; Exception_cls]
  | ValidationError_cls =>
      [ValidationError_cls; DatabaseUtilsError_cls; Exception_cls]
  end.

Definition class_eqb (a b : ExceptionClass) : bool :=
  match a, b with
  | Exception_cls, Exception_cls
  | AssertionError_cls, AssertionError_cls
  | ValueError_cls, ValueError_cls
  | DatabaseError_cls, DatabaseError_cls
  | ConnectionError_cls, ConnectionError_cls
  | TransactionError_cls, TransactionError_cls
  | DatabaseUtilsError_cls, DatabaseUtilsError_cls
  | IdentifierNotFoundError_cls, IdentifierNotFoundError_cls
  | DuplicateSecurityError_cls, DuplicateSecurityError_cls
  | ValidationError_cls, ValidationError_cls => true
  | _, _ => false
  end.

(** [isinstance(e, c)], what an [except c:] clause tests. *)
Definition isinstance (e : Exception) (c : ExceptionClass) : bool :=
  existsb (class_eqb c) (mro (class_of e)).

(* ===================================================================== *)
(** * connection.py: [DatabaseConnection] *)
(* ===================================================================== *)

(** [db_file] is the committed content of the database file, what a new
    connection sees; [_conn] is the open connection with the content it
    sees, its own uncommitted writes included, or [None].  (A file-backed
    database; opening the file is taken to succeed.) *)
Record DatabaseConnection : Type := mkDatabaseConnection {
  db_file : Database;
  _conn : option Database;
  _auto_initialize : bool;
  _initialized : bool }.

(** A call returns or raises, and leaves the connection in some state
    either way. *)
Inductive Outcome (A : Type) : Type :=
| Return (a : A)
| Raise (e : Exception).
Arguments Return {A} a.
Arguments Raise {A} e.

Definition M (A : Type) : Type :=
  DatabaseConnection -> Outcome A * DatabaseConnection.

Definition ret {A : Type} (a : A) : M A := fun c => (Return a, c).

Definition raise {A : Type} (e : Exception) : M A := fun c => (Raise e, c).

Definition bind {A B : Type} (m : M A) (k : A -> M B) : M B :=
  fun c =>
    match m c with
    | (Return a, c') => k a c'
    | (Raise e, c') => (Raise e, c')
    end.

Declare Scope db_scope.
Delimit Scope db_scope with db.
Notation "x <- m ;; k" := (bind m (fun x => k))
  (at level 61, m at next level, right associativity) : db_scope.
Notation "m ;;; k" := (bind m (fun _ => k))
  (at level 61, right associativity) : db_scope.
Local Open Scope db_scope.

(** The [try] block of [initialize], on an open connection that sees
    [seen]: [initialize_schema] ends with [conn.commit()]. *)
Definition initialize_open (seen : Database) (c : DatabaseConnection)
  : DatabaseConnection :=
  let db := initialize_schema seen in
  mkDatabaseConnection db (Some db) (_auto_initialize c) true.

Definition connect : M unit :=
  fun c =>
    match _conn c with
    | Some _ => (Return tt, c)
    | None =>
        let c1 := mkDatabaseConnection (db_file c) (Some (db_file c))
                    (_auto_initialize c) (_initialized c) in
        if _auto_initialize c && negb (_initialized c)
        then (Return tt, initialize_open (db_file c) c1)
        else (Return tt, c1)
    end.

Definition initialize : M unit :=
  fun c =>
    match _conn c with
    | None => connect c
    | Some seen => (Return tt, initialize_open seen c)
    end.

Definition is_connected (c : DatabaseConnection) : bool :=
  match _conn c with Some _ => true | None => false end.

(** [connect()] when there is no connection, the [assert], then the
    statement; a [sqlite3.Error] becomes a [DatabaseError]. *)
Definition execute (sql : Statement) : M Cursor :=
  connect ;;;
  (fun c =>
     match _conn c with
     | None => (Raise AssertionError, c)
     | Some seen =>
         match run_statement sql seen with
         | inr (cursor, seen') =>
             (Return cursor,
              mkDatabaseConnection (db_file c) (Some seen')
                (_auto_initialize c) (_initialized c))
         | inl e => (Raise (DatabaseError e), c)
         end
     end).

Definition fetchone (sql : Statement) : M (option Row) :=
  cursor <- execute sql ;;
  ret (hd_error (rows cursor)).

Definition fetchall (sql : Statement) : M (list Row) :=
  cursor <- execute sql ;;
  ret (rows cursor).

Definition commit : M unit :=
  fun c =>
    match _conn c with
    | Some seen =>
        (Return tt,
         mkDatabaseConnection seen (Some seen)
           (_auto_initialize c) (_initialized c))
    | None => (Return tt, c)
    end.

Definition rollback : M unit :=
  fun c =>
    match _conn c with
    | Some _ =>
        (Return tt,
         mkDatabaseConnection (db_file c) (Some (db_file c))
           (_auto_initialize c) (_initialized c))
    | None => (Return tt, c)
    end.

(** [with db.transaction(): body] *)
Definition transaction {A : Type} (body : M A) : M A :=
  connect ;;;
  (fun c =>
     match body c with
     | (Return a, c') => (commit ;;; ret a) c'
     | (Raise e, c') => (rollback ;;; raise (TransactionError e)) c'
     end).

(* ===================================================================== *)
(** * repositories/security.py: [SecurityRepository] *)
(* ===================================================================== *)

Definition create (nm : string) (descr aclass curr : option string)
  : M SecurityId :=
  cursor <- execute (InsertSecurity nm descr aclass curr) ;;
  commit ;;;
  ret (lastrowid cursor).

Definition add_identifier (sid : SecurityId) (ty : IdentifierType)
  (value : string) (primary : bool) (vfrom vto : option date) : M unit :=
  existing <- fetchone (SelectDuplicate ty value vfrom) ;;
  match existing with
  | Some row =>
      if negb (row_security_id row =? sid)
      then raise (DuplicateSecurityError ty value)
      else
        execute (InsertIdentifier sid ty value (if primary then 1 else 0)
                   vfrom vto) ;;;
        commit
  | None =>
      execute (InsertIdentifier sid ty value (if primary then 1 else 0)
                 vfrom vto) ;;;
      commit
  end.

(* ===================================================================== *)
(** * identifier.py: [IdentifierResolver] *)
(* ===================================================================== *)

(** [today] is what [date.today()] returns during the call. *)
Definition resolve (today : date) (value : string) (ty : IdentifierType)
  (as_of : option date) : M (option SecurityId) :=
  let as_of := match as_of with None => today | Some d => d end in
  row <- fetchone (SelectResolve ty value as_of) ;;
  match row with
  | None => ret None
  | Some r => ret (Some (row_security_id r))
  end.

(** The [for ticker_type in TICKER_TYPES] loop of [resolve_auto]. *)
Fixpoint resolve_tickers (today : date) (types : list IdentifierType)
  (value : string) (as_of : option date) : M (option SecurityId) :=
  match types with
  | [] => ret None
  | ticker_type :: rest =>
      result <- resolve today value ticker_type as_of ;;
      match result with
      | Some sid => ret (Some sid)
      | None => resolve_tickers today rest value as_of
      end
  end.

Definition resolve_auto (today : date) (value : string)
  (as_of : option date) : M (option SecurityId) :=
  match detect_identifier_type value with
  | Some detected_type =>
      result <- resolve today value detected_type as_of ;;
      match result with
      | Some sid => ret (Some sid)
      | None => resolve_tickers today TICKER_TYPES value as_of
      end
  | None => resolve_tickers today TICKER_TYPES value as_of
  end.

Definition resolve_or_create (today : date) (value : string)
  (ty : IdentifierType) (security_name : string)
  (descr aclass curr : option string) : M SecurityId :=
  existing_id <- resolve today value ty None ;;
  match existing_id with
  | Some sid => ret sid
  | None =>
      match security_name with
      | EmptyString =>
          raise (ValueError
                   ("security_name is required when creating new security for "
                    ++ ty ++ "=" ++ value))
      | _ =>
          sid <- create security_name descr aclass curr ;;
          add_identifier sid ty value false None None ;;;
          ret sid
      end
  end.

Definition resolve_or_raise (today : date) (value : string)
  (ty : IdentifierType) (as_of : option date) : M SecurityId :=
  result <- resolve today value ty as_of ;;
  match result with
  | None => raise (IdentifierNotFoundError ty value)
  | Some sid => ret sid
  end.

(* ===================================================================== *)
(** * Vocabulary of the specification *)
(* ===================================================================== *)

(** [id_type] has a pattern and [s] is in its language (up to the final
    newline [$] tolerates). *)
Definition pattern_holds (id_type : IdentifierType) (s : string) : Prop :=
  exists pattern,
    dict_get IDENTIFIER_PATTERNS id_type = Some pattern /\
    Re.full_match pattern s.

(** The half-open validity interval [valid_from, valid_to) of an
    association contains [d]; a NULL bound is no bound. *)
Definition in_validity (d : date) (r : SecurityIdentifier) : Prop :=
  (forall f, valid_from r = Some f -> f <= d) /\
  (forall t, valid_to r = Some t -> d < t).

(** [a] is not later than [b], a NULL [valid_from] being earlier than
    every date. *)
Definition valid_from_le (a b : option date) : Prop :=
  match a, b with
  | None, _ => True
  | Some x, Some y => x <= y
  | Some _, None => False
  end.

(** [as_of], or today's date when the caller gave none. *)
Definition effective_date (today : date) (as_of : option date) : date :=
  match as_of with
  | None => today
  | Some d => d
  end.

(** An association for (type, value) whose interval contains [d]. *)
Definition candidate (ty : IdentifierType) (value : string) (d : date)
  (db : Database) (r : SecurityIdentifier) : Prop :=
  In r (security_identifiers db) /\
  identifier_type r = ty /\ identifier_value r = value /\ in_validity d r.

(** The connection is open and the tables exist. *)
Definition ready (c : DatabaseConnection) : bool :=
  match _conn c with
  | Some seen => has_schema seen
  | None => false
  end.

(** The first [connect()] of an auto-initialising connection runs
    [initialize_schema]. *)
Definition initialises_on_connect (c : DatabaseConnection) : bool :=
  negb (is_connected c) && _auto_initialize c && negb (_initialized c).

(** The database as the next statement on [c] finds it; for a closed
    connection, the file. *)
Definition content (c : DatabaseConnection) : Database :=
  match _conn c with
  | Some seen => seen
  | None => db_file c
  end.




(** An open connection on which [seen] is committed. *)
Definition committed (seen : Database) (c : DatabaseConnection)
  : DatabaseConnection :=
  mkDatabaseConnection seen (Some seen) (_auto_initialize c) (_initialized c).

(** The two connections hold the same tables, in the file and as seen
    by the next statement. *)
Definition same_tables (c c' : DatabaseConnection) : Prop :=
  db_file c' = db_file c /\ content c' = content c.

Definition is_select (sql : Statement) : bool :=
  match sql with
  | SelectResolve _ _ _ | SelectDuplicate _ _ _ => true
  | InsertSecurity _ _ _ _ | InsertIdentifier _ _ _ _ _ _ => false
  end.

(** The first success among [resolve] tried with each type in turn. *)
Fixpoint first_resolution (today : date) (types : list IdentifierType)
  (value : string) (as_of : option date) (c : DatabaseConnection)
  : option SecurityId :=
  match types with
  | [] => None
  | ty :: rest =>
      match fst (resolve today value ty as_of c) with
      | Return (Some sid) => Some sid
      | _ => first_resolution today rest value as_of c
      end
  end.

(** The types [resolve_auto] is specified to try, in order: the detected
    type when there is one, then the ticker types. *)
Definition attempts (value : string) : list IdentifierType :=
  match detect_identifier_type value with
  | Some t => [t]
  | None => []
  end ++ TICKER_TYPES.




(* ===================================================================== *)
(** * Sample databases *)
(* ===================================================================== *)

(** A new database file after [initialize_schema], and a connection
    opened on it. *)
Definition seeded : Database := initialize_schema empty_database.

Definition fresh_connection : DatabaseConnection :=
  mkDatabaseConnection seeded (Some seeded) true true.

(** What is left of a computation: the connection it ends in. *)
Definition after {A : Type} (m : M A) (c : DatabaseConnection)
  : DatabaseConnection := snd (m c).

(** Test [test_point_in_time_resolution]: one security with the ticker
    OLD.T valid [2020-01-01, 2023-12-31) and NEW.T valid from 2024-01-01. *)
Definition renamed_ticker : DatabaseConnection :=
  after (sid <- create "Test Corp" None None None ;;
         add_identifier sid TICKER_YAHOO "OLD.T" false
           (Some 20200101) (Some 20231231) ;;;
         add_identifier sid TICKER_YAHOO "NEW.T" false (Some 20240101) None)
    fresh_connection.

(** A security whose code 7203 was registered without a start date and
    closed at the end of 2023. *)
Definition expired_code : DatabaseConnection :=
  after (sid <- create "Old Holder" None None None ;;
         add_identifier sid JP_CODE "7203" false None (Some 20231231))
    fresh_connection.

(** Security 1 holds an ISIN registered without a start date; security 2
    has no identifier yet. *)
Definition two_securities : DatabaseConnection :=
  after (a <- create "Security A" None None None ;;
         add_identifier a ISIN "US0378331005" false None None ;;;
         create "Security B" None None None)
    fresh_connection.

(** The overlay scenario: EXCEL_IMPORT (priority 50) and YFINANCE
    (priority 10) both report a close for security 1 on 2025-01-01. *)
Definition two_reports : Database :=
  mkDatabase true [mkSecurity 1 "Test Corp" None None None] 1
    (identifier_types seeded) [] 0
    (data_sources seeded) (seq_data_sources seeded)
    [ mkPriceData 1 1 2 20250101 None None None (101 # 1) None None;
      mkPriceData 2 1 1 20250101 None None None (100 # 1) None None ]
    [].

(** [DatabaseConnection(path)] on a file that does not exist yet. *)
Definition new_file : DatabaseConnection :=
  mkDatabaseConnection empty_database None true false.

(** A database file whose default data sources were deleted, reopened by
    a new process: the connection object is new and still closed. *)
Definition reopened : DatabaseConnection :=
  mkDatabaseConnection
    (with_data_sources [] (seq_data_sources seeded) seeded) None true false.

(* ===================================================================== *)
(** * connection.py: SELECTs with other columns, [close], [with db:] *)
(* ===================================================================== *)

(** A SELECT given by the table it reads first and the rows it returns.
    [execute_select] is [execute] for such a statement: connect if need
    be, fail with "no such table" before the schema exists, change
    nothing. *)
Record Select (R : Type) : Type := mkSelect {
  from_table : string;
  select_rows : Database -> list R }.
Arguments mkSelect {R} from_table select_rows.
Arguments from_table {R} s.
Arguments select_rows {R} s db.

Definition execute_select {R : Type} (q : Select R) : M (list R) :=
  connect ;;;
  (fun c =>
     match _conn c with
     | None => (Raise AssertionError, c)
     | Some seen =>
         if has_schema seen
         then (Return (select_rows q seen), c)
         else (Raise (DatabaseError (NoSuchTable (from_table q))), c)
     end).

Definition fetchone_select {R : Type} (q : Select R) : M (option R) :=
  result <- execute_select q ;;
  ret (hd_error result).

Definition fetchall_select {R : Type} (q : Select R) : M (list R) :=
  execute_select q.

(** [close()] (the name [close] is the column of price_data): the
    connection object goes; what it had not committed goes with it. *)
Definition close_connection : M unit :=
  fun c =>
    match _conn c with
    | Some _ =>
        (Return tt,
         mkDatabaseConnection (db_file c) None
           (_auto_initialize c) (_initialized c))
    | None => (Return tt, c)
    end.

(** [with db: body]: [__enter__] connects, [__exit__] closes and lets an
    exception of the body through. *)
Definition with_connection {A : Type} (body : M A) : M A :=
  connect ;;;
  (fun c =>
     match body c with
     | (outcome, c') => (outcome, snd (close_connection c'))
     end).

(* ===================================================================== *)
(** * repositories/security.py: the read side *)
(* ===================================================================== *)

(** A [SecurityDict] is the row without its two timestamps. *)
Definition SecurityDict := Security.

Record SecurityIdentifierDict : Type := mkSecurityIdentifierDict {
  d_id : Z;
  d_security_id : SecurityId;
  d_identifier_type : IdentifierType;
  d_identifier_value : string;
  d_valid_from : option date;
  d_valid_to : option date;
  d_is_primary : bool }.

(** [_parse_date]: NULL stays None; a stored date text is read back with
    [date.fromisoformat], which on the numbers that stand for dates here
    is the identity. *)
Definition _parse_date (value : option date) : option date :=
  match value with
  | None => None
  | Some d => Some d
  end.

(** SELECT ... FROM securities WHERE security_id = ? *)
Definition select_security (sid : SecurityId) : Select Security :=
  mkSelect "securities"
    (fun db => filter (fun s => security_id s =? sid) (securities db)).

Definition get (sid : SecurityId) : M (option SecurityDict) :=
  row <- fetchone_select (select_security sid) ;;
  match row with
  | None => ret None
  | Some r =>
      ret (Some (mkSecurity (security_id r) (name r) (description r)
                   (asset_class r) (currency r)))
  end.

(** ORDER BY identifier_type, valid_from: text by bytes, then the date
    with NULL first. *)
Definition valid_from_asc (a b : option date) : bool :=
  match a, b with
  | None, Some _ => true
  | Some x, Some y => x <? y
  | _, None => false
  end.

Definition type_then_valid_from (a b : SecurityIdentifier) : bool :=
  String.ltb (identifier_type a) (identifier_type b) ||
  (String.eqb (identifier_type a) (identifier_type b) &&
   valid_from_asc (valid_from a) (valid_from b)).

(** SELECT ... FROM security_identifiers WHERE security_id = ?
    ORDER BY identifier_type, valid_from *)
Definition select_identifiers (sid : SecurityId)
  : Select SecurityIdentifier :=
  mkSelect "security_identifiers"
    (fun db =>
       order_by type_then_valid_from
         (filter (fun r => si_security_id r =? sid)
            (security_identifiers db))).

Definition identifier_dict (row : SecurityIdentifier)
  : SecurityIdentifierDict :=
  mkSecurityIdentifierDict (si_id row) (si_security_id row)
    (identifier_type row) (identifier_value row)
    (_parse_date (valid_from row)) (_parse_date (valid_to row))
    (negb (is_primary row =? 0)).

Definition get_identifiers (sid : SecurityId)
  : M (list SecurityIdentifierDict) :=
  result <- fetchall_select (select_identifiers sid) ;;
  ret (map identifier_dict result).

(** FROM securities s JOIN security_identifiers si
    ON s.security_id = si.security_id *)
Definition identifier_join (db : Database)
  : list (Security * SecurityIdentifier) :=
  flat_map
    (fun s => map (fun si => (s, si))
                (filter (fun si => security_id s =? si_security_id si)
                   (security_identifiers db)))
    (securities db).

(** The SELECT of [get_by_identifier]: the WHERE and ORDER BY of
    [resolve] over the join, LIMIT 1. *)
Definition select_by_identifier (ty : IdentifierType) (value : string)
  (as_of : date) : Select Security :=
  mkSelect "securities"
    (fun db =>
       map fst
         (limit_1
            (order_by
               (fun a b => valid_from_desc_nulls_last (snd a) (snd b))
               (filter
                  (fun q => same_identifier ty value (snd q) &&
                            contains_date as_of (snd q))
                  (identifier_join db))))).

Definition get_by_identifier (today : date) (ty : IdentifierType)
  (value : string) (as_of : option date) : M (option SecurityDict) :=
  let as_of := match as_of with None => today | Some d => d end in
  row <- fetchone_select (select_by_identifier ty value as_of) ;;
  match row with
  | None => ret None
  | Some r =>
      ret (Some (mkSecurity (security_id r) (name r) (description r)
                   (asset_class r) (currency r)))
  end.

(* ===================================================================== *)
(** * Vocabulary of the further properties *)
(* ===================================================================== *)

(** Nothing is waiting for a commit. *)
Definition clean (c : DatabaseConnection) : Prop := content c = db_file c.

(** FOREIGN KEY (security_id) REFERENCES securities(security_id), and
    the primary key of securities. *)
Definition referential_integrity (db : Database) : Prop :=
  forall r, In r (security_identifiers db) ->
  exists s, In s (securities db) /\ security_id s = si_security_id r.

Definition unique_security_ids (db : Database) : Prop :=
  NoDup (map security_id (securities db)).

(** UNIQUE (identifier_type, identifier_value, valid_from): the triples
    of the rows that have a [valid_from] are all different (SQLite never
    takes two NULLs for equal). *)
Definition dated_triples (db : Database)
  : list (IdentifierType * string * option date) :=
  map (fun r => (identifier_type r, identifier_value r, valid_from r))
    (filter (fun r => match valid_from r with
                      | Some _ => true
                      | None => false
                      end)
       (security_identifiers db)).

Definition unique_triples (db : Database) : Prop :=
  NoDup (dated_triples db).

(** The constraints of the two tables of the securities master. *)
Definition constraints_hold (db : Database) : Prop :=
  referential_integrity db /\ unique_security_ids db /\ unique_triples db.

(** The ORDER BY of [get_identifiers] read on the returned dicts: [a]
    does not come after [b]. *)
Definition dict_before (a b : SecurityIdentifierDict) : bool :=
  String.ltb (d_identifier_type a) (d_identifier_type b) ||
  (String.eqb (d_identifier_type a) (d_identifier_type b) &&
   valid_from_asc (d_valid_from a) (d_valid_from b)).

Definition dict_in_order (a b : SecurityIdentifierDict) : Prop :=
  dict_before b a = false.

(** [db'] has every row of [db], unchanged and in place, and possibly
    further identifier types and data sources after them. *)
Definition grows (db db' : Database) : Prop :=
  (exists more,
     identifier_types db' = (identifier_types db ++ more)%list) /\
  (exists more, data_sources db' = (data_sources db ++ more)%list) /\
  securities db' = securities db /\
  seq_securities db' = seq_securities db /\
  security_identifiers db' = security_identifiers db /\
  seq_security_identifiers db' = seq_security_identifiers db /\
  price_data db' = price_data db /\
  factor_data db' = factor_data db.

(** The keys of the two reference tables: [type_code] (primary key),
    [source_id] (primary key) and [source_code] (UNIQUE). *)
Definition reference_keys (db : Database) : Prop :=
  NoDup (map type_code (identifier_types db)) /\
  NoDup (map source_id (data_sources db)) /\
  NoDup (map source_code (data_sources db)).





(** [d] lies in the half-open interval [vfrom, vto). *)
Definition within (vfrom vto : option date) (d : date) : Prop :=
  (forall f, vfrom = Some f -> f <= d) /\ (forall t, vto = Some t -> d < t).

(** An uppercase letter or a digit. *)
Definition alnum (c : ascii) : bool :=
  Re.accepts (Re.Class [Re.upper; Re.digit]) c.

(** Every character the atom accepts is an uppercase letter or digit. *)
Definition atom_alnum (a : Re.atom) : Prop :=
  forall c, Re.accepts a c = true -> alnum c = true.

(** The number of characters the pattern of a type asks for. *)
Definition code_length (id_type : IdentifierType) : nat :=
  match dict_get IDENTIFIER_PATTERNS id_type with
  | Some p => fold_right (fun item n => (snd item + n)%nat) O p
  | None => O
  end.

(** [s] without the one final newline [$] lets through. *)
Definition is_body (body s : string) : Prop :=
  s = body \/ s = (body ++ String Re.newline EmptyString)%string.

(* ===================================================================== *)
(** * Properties of the pattern matcher *)
(* ===================================================================== *)

Lemma append_assoc (s1 s2 s3 : string) :
  ((s1 ++ s2) ++ s3 = s1 ++ (s2 ++ s3))%string.
Proof.
  induction s1 as [|c s1 IH]; simpl; [reflexivity | now rewrite IH].
Qed.

Lemma append_empty_r (s : string) : (s ++ EmptyString)%string = s.
Proof.
  induction s as [|c s IH]; simpl; [reflexivity | now rewrite IH].
Qed.

Module ReFacts.
Import Re.

Lemma match_repeat_sound a n s rest :
  match_repeat a n s = Some rest ->
  exists body, repeat_lang a n body /\ s = (body ++ rest)%string.
Proof.
  revert s; induction n as [|n IH]; intros s H; simpl in H.
  - injection H as <-. exists EmptyString. split; [constructor | reflexivity].
  - destruct s as [|c s']; [discriminate|].
    destruct (accepts a c) eqn:Hc; [|discriminate].
    destruct (IH _ H) as (body & Hb & ->).
    exists (String c body). split; [now constructor | reflexivity].
Qed.

Lemma match_repeat_complete a n body rest :
  repeat_lang a n body -> match_repeat a n (body ++ rest) = Some rest.
Proof.
  induction 1 as [|n c s Hc _ IH]; simpl; [reflexivity|].
  now rewrite Hc.
Qed.

Lemma match_items_sound p s rest :
  match_items p s = Some rest ->
  exists body, lang p body /\ s = (body ++ rest)%string.
Proof.
  revert s; induction p as [|[a n] p IH]; intros s H; simpl in H.
  - injection H as <-. exists EmptyString. split; [constructor | reflexivity].
  - destruct (match_repeat a n s) as [mid|] eqn:Hr; [|discriminate].
    destruct (match_repeat_sound _ _ _ _ Hr) as (b1 & Hb1 & ->).
    destruct (IH _ H) as (b2 & Hb2 & ->).
    exists (b1 ++ b2)%string. split; [now constructor|].
    now rewrite append_assoc.
Qed.

Lemma match_items_complete p body rest :
  lang p body -> match_items p (body ++ rest) = Some rest.
Proof.
  induction 1 as [|a n p s1 s2 H1 _ IH]; simpl; [reflexivity|].
  rewrite append_assoc, (match_repeat_complete _ _ _ _ H1). exact IH.
Qed.

(** The matcher decides the language: [pattern.match(s)] succeeds exactly
    on the strings of the pattern, with or without one final newline. *)
Lemma re_match_full_match p s : re_match p s = true <-> full_match p s.
Proof.
  unfold re_match, full_match. split.
  - destruct (match_items p s) as [rest|] eqn:Hm; [|discriminate].
    destruct (match_items_sound _ _ _ Hm) as (body & Hb & ->).
    intros Hd. exists body. split; [exact Hb|].
    destruct rest as [|c [|c' rest]]; simpl in Hd; try discriminate.
    + left. apply append_empty_r.
    + right. apply Ascii.eqb_eq in Hd. now subst c.
  - intros (body & Hb & [-> | ->]).
    + rewrite <- (append_empty_r body) at 1.
      now rewrite (match_items_complete _ _ _ Hb).
    + now rewrite (match_items_complete _ _ _ Hb).
Qed.

Lemma repeat_lang_length a n body :
  repeat_lang a n body -> String.length body = n.
Proof. induction 1; simpl; congruence. Qed.

End ReFacts.

Lemma matches_pattern_holds id_type s :
  matches id_type s <-> pattern_holds id_type s.
Proof.
  unfold matches, pattern_holds; split; intros (p & Hp & Hm); exists p;
    (split; [exact Hp|]); now apply ReFacts.re_match_full_match.
Qed.

Lemma matches_dec id_type s : {matches id_type s} + {~ matches id_type s}.
Proof.
  unfold matches.
  destruct (dict_get IDENTIFIER_PATTERNS id_type) as [p|] eqn:Hp.
  - destruct (Re.re_match p s) eqn:Hm.
    + left. now exists p.
    + right. intros (q & Hq & Hm'). congruence.
  - right. intros (q & Hq & _). discriminate.
Qed.

Lemma detect_loop_hit x order s :
  matches x s -> detect_loop (x :: order) s = Some x.
Proof. intros (p & Hp & Hm). cbn [detect_loop]. now rewrite Hp, Hm. Qed.

Lemma detect_loop_skip x order s :
  ~ matches x s -> detect_loop (x :: order) s = detect_loop order s.
Proof.
  intros Hx. cbn [detect_loop].
  destruct (dict_get IDENTIFIER_PATTERNS x) as [p|] eqn:Hp; auto.
  destruct (Re.re_match p s) eqn:Hm; auto.
  exfalso. apply Hx. now exists p.
Qed.

(** The loop returns the first type of [order] whose pattern matches. *)
Lemma detect_loop_first order s t :
  detect_loop order s = Some t <->
  exists before after,
    order = (before ++ t :: after)%list /\ matches t s /\
    forall u, In u before -> ~ matches u s.
Proof.
  induction order as [|x order IH].
  - split; [discriminate|]. intros (b & a & H & _). now destruct b.
  - destruct (matches_dec x s) as [Hx | Hx].
    + rewrite (detect_loop_hit _ _ _ Hx). split.
      * intros [= <-]. exists [], order. repeat split; auto.
      * intros (b & a & Heq & Ht & Hb). destruct b as [|y b]; simpl in Heq.
        -- now injection Heq as <-.
        -- injection Heq as <- _. exfalso. apply (Hb x); simpl; auto.
    + rewrite (detect_loop_skip _ _ _ Hx), IH. split.
      * intros (b & a & -> & Ht & Hb). exists (x :: b), a.
        repeat split; auto. intros u [<- | Hu]; auto.
      * intros (b & a & Heq & Ht & Hb). destruct b as [|y b]; simpl in Heq.
        -- injection Heq as <- _. contradiction.
        -- injection Heq as <- ->. exists b, a. repeat split; auto.
           intros u Hu. apply Hb. simpl; auto.
Qed.

(** No pattern matches the empty string, so the guard at the top of
    [detect_identifier_type] agrees with the loop. *)
Lemma detect_loop_empty : detect_loop DETECTION_ORDER EmptyString = None.
Proof. reflexivity. Qed.

Lemma detect_as_loop s :
  detect_identifier_type s = detect_loop DETECTION_ORDER s.
Proof. destruct s; [symmetry; apply detect_loop_empty | reflexivity]. Qed.


Lemma detect_loop_in order s t : detect_loop order s = Some t -> In t order.
Proof.
  intros H. apply detect_loop_first in H as (b & a & -> & _).
  apply in_or_app. right. simpl; auto.
Qed.

(* ===================================================================== *)
(** * The detector *)
(* ===================================================================== *)


(** The patterns overlap: a FIGI is also shaped like an ISIN, and the
    order decides for FIGI. *)
Example detect_figi_before_isin :
  matches ISIN "BBG000B9XRY4" /\ matches FIGI "BBG000B9XRY4" /\
  detect_identifier_type "BBG000B9XRY4" = Some FIGI.
Proof.
  repeat split; [eexists; split; reflexivity | eexists; split; reflexivity].
Qed.

Example detect_examples :
  detect_identifier_type "US0378331005" = Some ISIN /\
  detect_identifier_type "037833100" = Some CUSIP /\
  detect_identifier_type "B03MLX2" = Some SEDOL /\
  detect_identifier_type "7203" = Some JP_CODE /\
  detect_identifier_type "7203.T" = None /\
  detect_identifier_type "12345" = None.
Proof. repeat split. Qed.

(** [$] lets one final newline through: four digits and a newline are
    still detected as a JP_CODE. *)
Example detect_trailing_newline :
  detect_identifier_type ("7203" ++ String Re.newline EmptyString)
  = Some JP_CODE.
Proof. reflexivity. Qed.

(** C9. The detector answers [None] or one of FIGI, ISIN, CUSIP, SEDOL,
    JP_CODE, never TICKER_YAHOO or TICKER_BBG: the ticker types have no
    pattern and are not in the detection order, so [resolve_auto] looks a
    ticker association up only in its fallback loop. *)
Theorem detect_identifier_type_never_ticker : forall s : string,
  (detect_identifier_type s = None \/
   exists t, detect_identifier_type s = Some t /\
             In t [FIGI; ISIN; CUSIP; SEDOL; JP_CODE]) /\
  detect_identifier_type s <> Some TICKER_YAHOO /\
  detect_identifier_type s <> Some TICKER_BBG /\
  (forall t, In t TICKER_TYPES ->
     dict_get IDENTIFIER_PATTERNS t = None /\ ~ In t DETECTION_ORDER).
Proof.
  intros s.
  assert (Hin : forall t, detect_identifier_type s = Some t ->
                          In t DETECTION_ORDER).
  { intros t. rewrite detect_as_loop. apply detect_loop_in. }
  assert (Hno : forall t, In t TICKER_TYPES -> ~ In t DETECTION_ORDER).
  { intros t [<- | [<- | []]] H; simpl in H;
      repeat (destruct H as [H | H]; [discriminate H|]); exact H. }
  split; [|split; [|split]].
  - destruct (detect_identifier_type s) as [t|] eqn:Hd; [right | now left].
    exists t. split; [reflexivity | now apply Hin].
  - intros H. apply (Hno TICKER_YAHOO); [simpl; auto | now apply Hin].
  - intros H. apply (Hno TICKER_BBG); [simpl; auto | now apply Hin].
  - intros t Ht. split; [|now apply Hno].
    destruct Ht as [<- | [<- | []]]; reflexivity.
Qed.

(* ===================================================================== *)
(** * ORDER BY ... LIMIT 1 returns a first row of the order *)
(* ===================================================================== *)

Section OrderByFacts.
Context {A : Type}.
Variable before : A -> A -> bool.
Hypothesis before_asym :
  forall x y, before x y = true -> before y x = false.
Hypothesis before_negtrans :
  forall x y z, before x z = true -> before x y = true \/ before y z = true.

Lemma before_irrefl x : before x x = false.
Proof.
  destruct (before x x) eqn:H; [|reflexivity].
  now rewrite (before_asym _ _ H) in H.
Qed.

Lemma in_insert_row x y sorted :
  In y (insert_row before x sorted) <-> y = x \/ In y sorted.
Proof.
  induction sorted as [|h t IH]; simpl.
  - intuition.
  - destruct (before h x); simpl; [rewrite IH|]; intuition.
Qed.

Lemma in_order_by y tbl : In y (order_by before tbl) <-> In y tbl.
Proof.
  induction tbl as [|x tbl IH]; simpl; [reflexivity|].
  rewrite in_insert_row, IH. intuition.
Qed.

Lemma order_by_nil tbl : order_by before tbl = [] <-> tbl = [].
Proof.
  split; [|now intros ->].
  destruct tbl as [|x tbl]; [reflexivity|]. intros H. exfalso.
  assert (Hx : In x (order_by before (x :: tbl)))
    by (apply in_order_by; simpl; auto).
  now rewrite H in Hx.
Qed.

(** No row of the table is strictly ahead of the first row of the sort. *)
Lemma order_by_head m rest tbl :
  order_by before tbl = m :: rest ->
  In m tbl /\ forall y, In y tbl -> before y m = false.
Proof.
  intros H. split.
  { apply in_order_by. rewrite H. simpl; auto. }
  revert m rest H. induction tbl as [|x tbl IH]; intros m rest H y Hy.
  { destruct Hy. }
  simpl in H. destruct (order_by before tbl) as [|h t] eqn:Hs.
  - apply (proj1 (order_by_nil _)) in Hs. rewrite Hs in Hy.
    injection H as <- _.
    destruct Hy as [<- | []]. apply before_irrefl.
  - simpl in H. destruct (before h x) eqn:Hhx.
    + injection H as <- _. destruct Hy as [<- | Hy].
      * now apply before_asym.
      * eapply IH; eauto.
    + injection H as <- _. destruct Hy as [<- | Hy].
      * apply before_irrefl.
      * destruct (before y x) eqn:Hyx; [|reflexivity].
        destruct (before_negtrans _ h _ Hyx) as [Hyh | Hhx'].
        -- rewrite (IH h t eq_refl y Hy) in Hyh. discriminate.
        -- congruence.
Qed.

Lemma limit_1_order_by_empty tbl :
  limit_1 (order_by before tbl) = [] <-> tbl = [].
Proof.
  split; [|now intros ->].
  intros H. apply (proj1 (order_by_nil _)).
  destruct (order_by before tbl); [reflexivity | discriminate].
Qed.

Lemma limit_1_order_by_head m tbl :
  limit_1 (order_by before tbl) = [m] ->
  In m tbl /\ forall y, In y tbl -> before y m = false.
Proof.
  destruct (order_by before tbl) as [|h t] eqn:Hs; simpl; [discriminate|].
  intros [= <-]. eapply order_by_head; eauto.
Qed.

Lemma limit_1_cases (tbl : list A) :
  limit_1 tbl = [] \/ exists m, limit_1 tbl = [m].
Proof. destruct tbl; simpl; eauto. Qed.

End OrderByFacts.

Lemma in_unique_key {A : Type} (key : A -> Z) (l : list A) x y :
  NoDup (map key l) -> In x l -> In y l -> key x = key y -> x = y.
Proof.
  induction l as [|a l IH]; simpl; [contradiction|].
  intros Hnd Hx Hy Hk. inversion Hnd as [|? ? Hnotin Hnd']; subst.
  destruct Hx as [<- | Hx], Hy as [<- | Hy]; auto.
  - exfalso. apply Hnotin. rewrite Hk. now apply in_map.
  - exfalso. apply Hnotin. rewrite <- Hk. now apply in_map.
Qed.

(* ===================================================================== *)
(** * The connection *)
(* ===================================================================== *)

Lemma connect_open c seen :
  _conn c = Some seen -> connect c = (Return tt, c).
Proof. intros H. unfold connect. now rewrite H. Qed.

Lemma execute_open sql c seen :
  _conn c = Some seen ->
  execute sql c =
  match run_statement sql seen with
  | inr (cursor, seen') =>
      (Return cursor,
       mkDatabaseConnection (db_file c) (Some seen')
         (_auto_initialize c) (_initialized c))
  | inl e => (Raise (DatabaseError e), c)
  end.
Proof.
  intros H. unfold execute, bind. rewrite (connect_open _ _ H), H.
  reflexivity.
Qed.

Lemma same_connection c seen :
  _conn c = Some seen ->
  mkDatabaseConnection (db_file c) (Some seen)
    (_auto_initialize c) (_initialized c) = c.
Proof. destruct c; simpl; now intros ->. Qed.

Lemma ready_open c :
  ready c = true -> exists seen, _conn c = Some seen /\ has_schema seen = true.
Proof.
  unfold ready. destruct (_conn c) as [seen|]; [eauto | discriminate].
Qed.

(** A SELECT on an open connection leaves the connection as it is. *)
Lemma fetchone_select_resolve c seen ty value d :
  _conn c = Some seen -> has_schema seen = true ->
  fetchone (SelectResolve ty value d) c
  = (Return (hd_error (select_resolve ty value d seen)), c).
Proof.
  intros Hc Hs. unfold fetchone, bind. rewrite (execute_open _ _ _ Hc).
  simpl. rewrite Hs. simpl. now rewrite (same_connection _ _ Hc).
Qed.

Lemma fetchone_select_duplicate c seen ty value vfrom :
  _conn c = Some seen -> has_schema seen = true ->
  fetchone (SelectDuplicate ty value vfrom) c
  = (Return (hd_error (select_duplicate ty value vfrom seen)), c).
Proof.
  intros Hc Hs. unfold fetchone, bind. rewrite (execute_open _ _ _ Hc).
  simpl. rewrite Hs. simpl. now rewrite (same_connection _ _ Hc).
Qed.

Lemma fetchone_no_schema c seen sql :
  _conn c = Some seen -> has_schema seen = false ->
  exists e, fetchone sql c = (Raise (DatabaseError e), c).
Proof.
  intros Hc Hs. unfold fetchone, bind. rewrite (execute_open _ _ _ Hc).
  destruct sql; simpl; rewrite Hs; eauto.
Qed.

(* ===================================================================== *)
(** * [resolve]: point-in-time lookup *)
(* ===================================================================== *)

Lemma valid_from_desc_asym a b :
  valid_from_desc_nulls_last a b = true ->
  valid_from_desc_nulls_last b a = false.
Proof.
  unfold valid_from_desc_nulls_last.
  destruct (valid_from a), (valid_from b); try discriminate; auto.
  rewrite Z.ltb_lt, Z.ltb_ge. lia.
Qed.

Lemma valid_from_desc_negtrans a b c :
  valid_from_desc_nulls_last a c = true ->
  valid_from_desc_nulls_last a b = true \/
  valid_from_desc_nulls_last b c = true.
Proof.
  unfold valid_from_desc_nulls_last.
  destruct (valid_from a) as [x|], (valid_from b) as [y|],
    (valid_from c) as [z|]; try discriminate; auto.
  rewrite !Z.ltb_lt. lia.
Qed.

Lemma not_before_valid_from_le a b :
  valid_from_desc_nulls_last a b = false ->
  valid_from_le (valid_from a) (valid_from b).
Proof.
  unfold valid_from_desc_nulls_last, valid_from_le.
  destruct (valid_from a), (valid_from b); try discriminate; auto.
  rewrite Z.ltb_ge. lia.
Qed.

Lemma same_identifier_true ty value r :
  same_identifier ty value r = true <->
  identifier_type r = ty /\ identifier_value r = value.
Proof.
  unfold same_identifier.
  now rewrite andb_true_iff, !String.eqb_eq.
Qed.

Lemma contains_date_true d r :
  contains_date d r = true <-> in_validity d r.
Proof.
  unfold contains_date, in_validity. rewrite andb_true_iff.
  destruct (valid_from r) as [f|], (valid_to r) as [t|];
    rewrite ?Z.leb_le, ?Z.ltb_lt; split.
  all: try (intros [H1 H2]; split; intros ? [= <-]; assumption).
  all: try (intros [H1 H2]; split; auto).
  all: try (intros [H1 H2]; split; intros; discriminate).
  all: try (intros [H1 H2]; split; [intros ? [= <-]; assumption
                                   | intros; discriminate]).
  all: try (intros [H1 H2]; split; [intros; discriminate
                                   | intros ? [= <-]; assumption]).
Qed.

Lemma in_resolve_candidates ty value d db r :
  In r (resolve_candidates ty value d db) <-> candidate ty value d db r.
Proof.
  unfold resolve_candidates, candidate.
  rewrite filter_In, andb_true_iff, same_identifier_true, contains_date_true.
  tauto.
Qed.

(** On an open connection with the tables in place [resolve] is the
    SELECT and nothing else. *)
Lemma resolve_ready today value ty as_of c seen :
  _conn c = Some seen -> has_schema seen = true ->
  resolve today value ty as_of c
  = (Return (option_map row_security_id
               (hd_error (select_resolve ty value
                            (effective_date today as_of) seen))), c).
Proof.
  intros Hc Hs. unfold resolve, bind.
  fold (effective_date today as_of).
  rewrite (fetchone_select_resolve _ _ _ _ _ Hc Hs).
  now destruct (hd_error _).
Qed.

(** C2. On an open, initialised connection [resolve] returns the security
    of an association for (type, value) whose interval [valid_from,
    valid_to) contains the date, NULL bounds being unbounded; among
    several such rows it takes one with the latest [valid_from], a NULL
    [valid_from] counting as earliest; and it returns [None] exactly when
    no association contains the date. *)
Theorem resolve_point_in_time :
  forall (today : date) (value : string) (ty : IdentifierType)
         (as_of : option date) (c : DatabaseConnection),
  ready c = true ->
  exists result,
    resolve today value ty as_of c = (Return result, c) /\
    (result = None <->
     forall r, ~ candidate ty value (effective_date today as_of)
                   (content c) r) /\
    (forall sid, result = Some sid ->
       exists r,
         candidate ty value (effective_date today as_of) (content c) r /\
         si_security_id r = sid /\
         forall r',
           candidate ty value (effective_date today as_of) (content c) r' ->
           valid_from_le (valid_from r') (valid_from r)).
Proof.
  intros today value ty as_of c Hr.
  destruct (ready_open _ Hr) as (seen & Hc & Hs).
  unfold content. rewrite Hc.
  set (d := effective_date today as_of).
  eexists. split; [apply (resolve_ready _ _ _ _ _ _ Hc Hs)|].
  fold d. unfold select_resolve.
  destruct (limit_1_cases
              (order_by valid_from_desc_nulls_last
                 (resolve_candidates ty value d seen))) as [He | [m Hm]].
  - rewrite He. simpl. split.
    + split; [|reflexivity]. intros _ r Hcand.
      apply limit_1_order_by_empty in He.
      apply in_resolve_candidates in Hcand. now rewrite He in Hcand.
    + discriminate.
  - rewrite Hm. simpl.
    destruct (limit_1_order_by_head _ valid_from_desc_asym
                valid_from_desc_negtrans _ _ Hm) as [Hin Hmax].
    split.
    + split; [discriminate|]. intros Hnone. exfalso.
      apply (Hnone m). now apply in_resolve_candidates.
    + intros sid [= <-]. exists m. split; [now apply in_resolve_candidates|].
      split; [reflexivity|]. intros r' Hr'.
      apply not_before_valid_from_le, Hmax. now apply in_resolve_candidates.
Qed.

Lemma resolve_point_in_time_witness :
  ready renamed_ticker = true /\
  exists result,
    resolve 20240601 "OLD.T" TICKER_YAHOO (Some 20220601) renamed_ticker
    = (Return result, renamed_ticker) /\
    (result = None <->
     forall r, ~ candidate TICKER_YAHOO "OLD.T"
                   (effective_date 20240601 (Some 20220601))
                   (content renamed_ticker) r) /\
    (forall sid, result = Some sid ->
       exists r,
         candidate TICKER_YAHOO "OLD.T"
           (effective_date 20240601 (Some 20220601))
           (content renamed_ticker) r /\
         si_security_id r = sid /\
         forall r',
           candidate TICKER_YAHOO "OLD.T"
             (effective_date 20240601 (Some 20220601))
             (content renamed_ticker) r' ->
           valid_from_le (valid_from r') (valid_from r)).
Proof.
  split; [reflexivity|].
  apply (resolve_point_in_time 20240601 "OLD.T" TICKER_YAHOO (Some 20220601)
           renamed_ticker).
  reflexivity.
Defined.

(** The temporal scenario of the specification. *)
Example resolve_renamed_ticker :
  fst (resolve 20240601 "OLD.T" TICKER_YAHOO (Some 20220601) renamed_ticker)
  = Return (Some 1) /\
  fst (resolve 20240601 "OLD.T" TICKER_YAHOO (Some 20240601) renamed_ticker)
  = Return None /\
  fst (resolve 20240601 "NEW.T" TICKER_YAHOO (Some 20220601) renamed_ticker)
  = Return None /\
  fst (resolve 20240601 "NEW.T" TICKER_YAHOO (Some 20240601) renamed_ticker)
  = Return (Some 1) /\
  fst (resolve 20240601 "OLD.T" TICKER_YAHOO (Some 20231231) renamed_ticker)
  = Return None /\
  fst (resolve 20240601 "NEW.T" TICKER_YAHOO None renamed_ticker)
  = Return (Some 1).
Proof. repeat split. Qed.

(* ===================================================================== *)
(** * [resolve_auto]: detection, then the ticker types *)
(* ===================================================================== *)

Lemma resolve_tickers_ready today types value as_of c :
  ready c = true ->
  resolve_tickers today types value as_of c
  = (Return (first_resolution today types value as_of c), c).
Proof.
  intros Hr. destruct (ready_open _ Hr) as (seen & Hc & Hs).
  induction types as [|ty types IH]; [reflexivity|].
  cbn [resolve_tickers first_resolution]. unfold bind.
  rewrite (resolve_ready _ _ _ _ _ _ Hc Hs). cbn [fst].
  destruct (option_map _ _); [reflexivity | exact IH].
Qed.

(** C7. [resolve_auto] runs the detector and tries [resolve] with the
    detected type, if any, then with TICKER_YAHOO, then with TICKER_BBG,
    in this order; it returns the first resolution that succeeds and
    [None] when every attempt misses. *)
Theorem resolve_auto_fallback_chain :
  forall (today : date) (value : string) (as_of : option date)
         (c : DatabaseConnection),
  ready c = true ->
  TICKER_TYPES = [TICKER_YAHOO; TICKER_BBG] /\
  attempts value =
    (match detect_identifier_type value with
     | Some t => [t]
     | None => []
     end ++ [TICKER_YAHOO; TICKER_BBG])%list /\
  resolve_auto today value as_of c
  = (Return (first_resolution today (attempts value) value as_of c), c).
Proof.
  intros today value as_of c Hr.
  split; [reflexivity|]. split; [reflexivity|].
  destruct (ready_open _ Hr) as (seen & Hc & Hs).
  unfold resolve_auto, attempts.
  destruct (detect_identifier_type value) as [t|].
  - cbn [app first_resolution]. unfold bind.
    rewrite (resolve_ready _ _ _ _ _ _ Hc Hs). cbn [fst].
    destruct (option_map _ _); [reflexivity|].
    now apply resolve_tickers_ready.
  - now apply resolve_tickers_ready.
Qed.

Lemma resolve_auto_fallback_chain_witness :
  ready renamed_ticker = true /\
  resolve_auto 20240601 "NEW.T" None renamed_ticker
  = (Return (first_resolution 20240601 (attempts "NEW.T") "NEW.T" None
               renamed_ticker), renamed_ticker).
Proof.
  split; [reflexivity|].
  apply (resolve_auto_fallback_chain 20240601 "NEW.T" None renamed_ticker).
  reflexivity.
Defined.

(** "NEW.T" has no structural pattern and is found as a Yahoo ticker;
    "7203" is detected as JP_CODE, misses, and misses as a ticker too. *)
Example resolve_auto_examples :
  fst (resolve_auto 20240601 "NEW.T" None renamed_ticker) = Return (Some 1) /\
  fst (resolve_auto 20240601 "7203" None renamed_ticker) = Return None /\
  fst (resolve_auto 20240601 "7203" (Some 20200101) expired_code)
  = Return (Some 1).
Proof. repeat split. Qed.

(* ===================================================================== *)
(** * The read paths write nothing *)
(* ===================================================================== *)

Lemma same_tables_refl c : same_tables c c.
Proof. now split. Qed.

Lemma same_tables_trans c1 c2 c3 :
  same_tables c1 c2 -> same_tables c2 c3 -> same_tables c1 c3.
Proof. unfold same_tables. intros [-> ->] [-> ->]. now split. Qed.

Lemma connected_no_initialise c :
  is_connected c = true -> initialises_on_connect c = false.
Proof. unfold initialises_on_connect. now intros ->. Qed.

Lemma connect_without_initialise c :
  initialises_on_connect c = false ->
  fst (connect c) = Return tt /\
  same_tables c (after connect c) /\ is_connected (after connect c) = true.
Proof.
  unfold initialises_on_connect, is_connected, after, connect, same_tables,
    content.
  destruct c as [file [seen|] auto init]; simpl; intros H.
  - auto.
  - rewrite H. simpl. auto.
Qed.

(** A SELECT leaves an open connection exactly as it is, whether it
    returns rows or fails. *)
Lemma execute_select_open sql c :
  is_select sql = true -> is_connected c = true ->
  after (execute sql) c = c.
Proof.
  unfold is_connected, after. intros Hsel Hc.
  destruct (_conn c) as [seen|] eqn:Hconn; [|discriminate].
  rewrite (execute_open _ _ _ Hconn).
  destruct sql; try discriminate; simpl;
    destruct (has_schema seen); simpl; auto using same_connection.
Qed.

Lemma fetchone_select_open sql c :
  is_select sql = true -> is_connected c = true ->
  after (fetchone sql) c = c.
Proof.
  intros Hsel Hc. pose proof (execute_select_open _ _ Hsel Hc) as H.
  unfold after, fetchone, bind in *.
  destruct (execute sql c) as [[cursor | e] c']; simpl in *; exact H.
Qed.

Lemma resolve_open today value ty as_of c :
  is_connected c = true -> after (resolve today value ty as_of) c = c.
Proof.
  intros Hc.
  pose proof (fetchone_select_open
                (SelectResolve ty value (effective_date today as_of)) c
                eq_refl Hc) as H.
  unfold after, resolve, bind in *. fold (effective_date today as_of).
  destruct (fetchone _ c) as [[[row|] | e] c']; simpl in *; exact H.
Qed.

Lemma resolve_tickers_open today types value as_of c :
  is_connected c = true ->
  after (resolve_tickers today types value as_of) c = c.
Proof.
  intros Hc. induction types as [|ty types IH]; [reflexivity|].
  pose proof (resolve_open today value ty as_of c Hc) as H.
  unfold after in *. cbn [resolve_tickers]. unfold bind.
  destruct (resolve today value ty as_of c) as [[[sid|] | e] c'];
    simpl in *; subst c'; auto.
Qed.

Lemma resolve_auto_open today value as_of c :
  is_connected c = true -> after (resolve_auto today value as_of) c = c.
Proof.
  intros Hc. unfold resolve_auto.
  destruct (detect_identifier_type value) as [t|];
    [|now apply resolve_tickers_open].
  pose proof (resolve_open today value t as_of c Hc) as H.
  pose proof (resolve_tickers_open today TICKER_TYPES value as_of c Hc) as Ht.
  unfold after in *. unfold bind.
  destruct (resolve today value t as_of c) as [[[sid|] | e] c'];
    simpl in *; subst c'; auto.
Qed.

Lemma resolve_or_raise_open today value ty as_of c :
  is_connected c = true ->
  after (resolve_or_raise today value ty as_of) c = c.
Proof.
  intros Hc. pose proof (resolve_open today value ty as_of c Hc) as H.
  unfold after, resolve_or_raise, bind in *.
  destruct (resolve today value ty as_of c) as [[[sid|] | e] c'];
    simpl in *; exact H.
Qed.

(** [execute] connects first, and a second [connect()] does nothing. *)
Lemma execute_connect sql c : execute sql c = execute sql (after connect c).
Proof.
  unfold execute, bind, after, connect.
  destruct c as [file [seen|] auto init]; simpl; [reflexivity|].
  destruct (auto && negb init); reflexivity.
Qed.

Lemma resolve_connect today value ty as_of c :
  resolve today value ty as_of c
  = resolve today value ty as_of (after connect c).
Proof. unfold resolve, fetchone, bind. now rewrite execute_connect. Qed.

Lemma resolve_tickers_connect today ty types value as_of c :
  resolve_tickers today (ty :: types) value as_of c
  = resolve_tickers today (ty :: types) value as_of (after connect c).
Proof. cbn [resolve_tickers]. unfold bind. now rewrite resolve_connect. Qed.

Lemma resolve_auto_connect today value as_of c :
  resolve_auto today value as_of c
  = resolve_auto today value as_of (after connect c).
Proof.
  unfold resolve_auto. destruct (detect_identifier_type value).
  - unfold bind. now rewrite resolve_connect.
  - apply resolve_tickers_connect.
Qed.

Lemma resolve_or_raise_connect today value ty as_of c :
  resolve_or_raise today value ty as_of c
  = resolve_or_raise today value ty as_of (after connect c).
Proof. unfold resolve_or_raise, bind. now rewrite resolve_connect. Qed.

Lemma frame_via_connect {A : Type} (m : M A) c :
  m c = m (after connect c) ->
  after m (after connect c) = after connect c ->
  same_tables c (after connect c) ->
  same_tables c (after m c).
Proof.
  intros E F S.
  rewrite (f_equal snd E : after m c = after m (after connect c)), F.
  exact S.
Qed.

(** C10, amended. On a connection that is open, or closed but not due to
    initialise the schema when it connects, [resolve], [resolve_auto] and
    [resolve_or_raise] leave every table as it was, in the file and as
    the connection sees it, whatever the call returns or raises; an open
    connection is left untouched altogether.  (The detector is a function
    of the string alone and has no connection to change.) *)
Theorem read_paths_leave_tables_unchanged :
  forall (today : date) (value : string) (ty : IdentifierType)
         (as_of : option date) (c : DatabaseConnection),
  initialises_on_connect c = false ->
  same_tables c (after (resolve today value ty as_of) c) /\
  same_tables c (after (resolve_auto today value as_of) c) /\
  same_tables c (after (resolve_or_raise today value ty as_of) c) /\
  (is_connected c = true ->
   after (resolve today value ty as_of) c = c /\
   after (resolve_auto today value as_of) c = c /\
   after (resolve_or_raise today value ty as_of) c = c).
Proof.
  intros today value ty as_of c Hni.
  destruct (connect_without_initialise _ Hni) as (_ & Hsame & Hopen).
  split; [|split; [|split]].
  - apply (frame_via_connect _ _ (resolve_connect _ _ _ _ _)
             (resolve_open _ _ _ _ _ Hopen) Hsame).
  - apply (frame_via_connect _ _ (resolve_auto_connect _ _ _ _)
             (resolve_auto_open _ _ _ _ Hopen) Hsame).
  - apply (frame_via_connect _ _ (resolve_or_raise_connect _ _ _ _ _)
             (resolve_or_raise_open _ _ _ _ _ Hopen) Hsame).
  - intros Hc. split; [|split].
    + now apply resolve_open.
    + now apply resolve_auto_open.
    + now apply resolve_or_raise_open.
Qed.

Lemma read_paths_leave_tables_unchanged_witness :
  initialises_on_connect renamed_ticker = false /\
  same_tables renamed_ticker
    (after (resolve 20240601 "OLD.T" TICKER_YAHOO None) renamed_ticker) /\
  same_tables renamed_ticker
    (after (resolve_auto 20240601 "OLD.T" None) renamed_ticker) /\
  same_tables renamed_ticker
    (after (resolve_or_raise 20240601 "OLD.T" TICKER_YAHOO None)
       renamed_ticker).
Proof.
  split; [reflexivity|].
  destruct (read_paths_leave_tables_unchanged 20240601 "OLD.T" TICKER_YAHOO
              None renamed_ticker eq_refl) as (H1 & H2 & H3 & _).
  split; [exact H1 | split; [exact H2 | exact H3]].
Defined.

(** C10 as stated fails: the first call on a closed, auto-initialising
    connection connects and runs [initialize_schema], which puts the four
    default data sources back into a database that had none. *)
Lemma resolve_reseeds_data_sources :
  fst (resolve 20240601 "7203" JP_CODE None reopened) = Return None /\
  data_sources (db_file reopened) = [] /\
  map source_code
    (data_sources
       (db_file (after (resolve 20240601 "7203" JP_CODE None) reopened)))
  = ["YFINANCE"; "EXCEL_IMPORT"; "MANUAL_ENTRY"; "DERIVED_CALC"] /\
  data_sources
    (db_file (after (resolve 20240601 "7203" JP_CODE None) reopened))
  <> data_sources (db_file reopened).
Proof.
  split; [reflexivity|]. split; [reflexivity|]. split; [reflexivity|].
  vm_compute. discriminate.
Qed.

(** The first call on a new file creates the tables and seeds them. *)
Example resolve_on_new_file :
  fst (resolve 20240601 "7203" JP_CODE None new_file) = Return None /\
  has_schema (db_file (after (resolve 20240601 "7203" JP_CODE None) new_file))
  = true /\
  List.length
    (data_sources
       (db_file (after (resolve 20240601 "7203" JP_CODE None) new_file)))
  = 4%nat /\
  List.length
    (identifier_types
       (db_file (after (resolve 20240601 "7203" JP_CODE None) new_file)))
  = 7%nat.
Proof. split; [reflexivity|]. split; [reflexivity|]. split; reflexivity. Qed.

(** With [auto_initialize=False] the tables are missing and the call
    raises, again without touching anything. *)
Example resolve_without_schema :
  fst (resolve 20240601 "7203" JP_CODE None
         (mkDatabaseConnection empty_database None false false))
  = Raise (DatabaseError (NoSuchTable "security_identifiers")) /\
  db_file (after (resolve 20240601 "7203" JP_CODE None)
             (mkDatabaseConnection empty_database None false false))
  = empty_database.
Proof. split; reflexivity. Qed.

(* ===================================================================== *)
(** * The write paths on an open connection *)
(* ===================================================================== *)


Lemma hd_error_filter_none {A : Type} (f : A -> bool) (l : list A) :
  hd_error (filter f l) = None <-> forall x, In x l -> f x = false.
Proof.
  induction l as [|a l IH]; simpl.
  - split; [intros _ x [] | reflexivity].
  - destruct (f a) eqn:Ha; simpl.
    + split; [discriminate|]. intros H. rewrite (H a) in Ha; auto.
      discriminate.
    + rewrite IH. split.
      * intros H x [<- | Hx]; auto.
      * intros H x Hx. apply H. auto.
Qed.

Lemma hd_error_filter_some {A : Type} (f : A -> bool) (l : list A) r :
  hd_error (filter f l) = Some r <->
  exists before after,
    l = (before ++ r :: after)%list /\ f r = true /\
    forall x, In x before -> f x = false.
Proof.
  induction l as [|a l IH]; simpl.
  - split; [discriminate|]. intros (b & t & H & _). now destruct b.
  - destruct (f a) eqn:Ha; simpl.
    + split.
      * intros [= <-]. exists [], l. repeat split; auto. intros x [].
      * intros (b & t & Heq & Hr & Hb). destruct b as [|y b]; simpl in Heq.
        -- now injection Heq as <-.
        -- injection Heq as <- _. rewrite (Hb a) in Ha; [discriminate|].
           simpl; auto.
    + rewrite IH. split.
      * intros (b & t & -> & Hr & Hb). exists (a :: b), t.
        repeat split; auto. intros x [<- | Hx]; auto.
      * intros (b & t & Heq & Hr & Hb). destruct b as [|y b]; simpl in Heq.
        -- injection Heq as <- _. congruence.
        -- injection Heq as <- ->. exists b, t. repeat split; auto.
           intros x Hx. apply Hb. simpl; auto.
Qed.




Lemma create_ready nm descr aclass curr c seen :
  _conn c = Some seen -> has_schema seen = true ->
  create nm descr aclass curr c
  = (Return (lastrowid (fst (insert_security nm descr aclass curr seen))),
     committed (snd (insert_security nm descr aclass curr seen)) c).
Proof.
  intros Hc Hs. unfold create, bind. rewrite (execute_open _ _ _ Hc).
  simpl. rewrite Hs. reflexivity.
Qed.

(** [add_identifier] on an open connection with the tables in place: the
    duplicate check, then the INSERT and the commit. *)
Lemma add_identifier_ready sid ty value primary vfrom vto c seen :
  _conn c = Some seen -> has_schema seen = true ->
  add_identifier sid ty value primary vfrom vto c =
  let insert :=
    match insert_identifier sid ty value (if primary then 1 else 0)
            vfrom vto seen with
    | inl e => (Raise (DatabaseError e), c)
    | inr (_, seen') => (Return tt, committed seen' c)
    end in
  match hd_error (select_duplicate ty value vfrom seen) with
  | Some row =>
      if negb (row_security_id row =? sid)
      then (Raise (DuplicateSecurityError ty value), c)
      else insert
  | None => insert
  end.
Proof.
  intros Hc Hs. unfold add_identifier, bind at 1.
  rewrite (fetchone_select_duplicate _ _ _ _ _ Hc Hs).
  assert (Hins :
    (execute (InsertIdentifier sid ty value (if primary then 1 else 0)
                vfrom vto) ;;; commit) c
    = match insert_identifier sid ty value (if primary then 1 else 0)
              vfrom vto seen with
      | inl e => (Raise (DatabaseError e), c)
      | inr (_, seen') => (Return tt, committed seen' c)
      end).
  { unfold bind. rewrite (execute_open _ _ _ Hc). simpl. rewrite Hs.
    destruct (insert_identifier _ _ _ _ _ _ seen) as [e | [cur seen']];
      reflexivity. }
  cbv zeta.
  destruct (hd_error (select_duplicate ty value vfrom seen)) as [row|];
    [destruct (negb (row_security_id row =? sid))|]; auto.
Qed.

(* ===================================================================== *)
(** * [add_identifier]: the duplicate check and the insert *)
(* ===================================================================== *)

Lemma insert_identifier_appends sid ty value primary vfrom vto db cur db' :
  insert_identifier sid ty value primary vfrom vto db = inr (cur, db') ->
  exists new_id,
    db' = with_security_identifiers
            (security_identifiers db ++
               [mkSecurityIdentifier new_id sid ty value vfrom vto primary])
            new_id db.
Proof.
  unfold insert_identifier.
  destruct (existsb _ (security_identifiers db)); [discriminate|].
  destruct (negb (existsb _ (securities db))); [discriminate|].
  destruct (negb (existsb _ (identifier_types db))); [discriminate|].
  intros [= _ <-]. eauto.
Qed.








(** The scenario of the specification, and the same-security case: the
    check lets a second NULL-dated row of the same security through, and
    SQLite's UNIQUE constraint, which never equates NULLs, accepts it. *)
Example add_identifier_examples :
  fst (add_identifier 2 ISIN "US0378331005" false None None two_securities)
  = Raise (DuplicateSecurityError ISIN "US0378331005") /\
  fst (add_identifier 1 ISIN "US0378331005" false None None two_securities)
  = Return tt /\
  List.length
    (security_identifiers
       (db_file (after (add_identifier 1 ISIN "US0378331005" false
                          None None) two_securities))) = 2%nat /\
  fst (add_identifier 1 TICKER_YAHOO "OLD.T" false (Some 20200101) None
         renamed_ticker)
  = Raise (DatabaseError
             (UniqueConstraintFailed
                "security_identifiers.identifier_type, security_identifiers.identifier_value, security_identifiers.valid_from")).
Proof. repeat split. Qed.

(* ===================================================================== *)
(** * [resolve_or_create] *)
(* ===================================================================== *)

Lemma resolve_open_result today value ty as_of c :
  is_connected c = true ->
  resolve today value ty as_of c
  = (fst (resolve today value ty as_of c), c).
Proof.
  intros Hc. pose proof (resolve_open today value ty as_of c Hc) as H.
  unfold after in H. destruct (resolve today value ty as_of c) as [o c'].
  simpl in *. now subst c'.
Qed.

(** C6, amended.  When [resolve] finds no association and the name is
    empty, [resolve_or_create] raises the built-in ValueError (which is
    not an instance of the package's ValidationError, nor of its base
    DatabaseUtilsError) before any write: an open connection is left
    exactly as it was, so no Security and no IdentifierAssociation row is
    created. *)
Theorem resolve_or_create_empty_name :
  forall (today : date) (value : string) (ty : IdentifierType)
         (descr aclass curr : option string) (c : DatabaseConnection),
  is_connected c = true ->
  fst (resolve today value ty None c) = Return None ->
  exists msg,
    resolve_or_create today value ty EmptyString descr aclass curr c
    = (Raise (ValueError msg), c) /\
    isinstance (ValueError msg) ValueError_cls = true /\
    isinstance (ValueError msg) ValidationError_cls = false /\
    isinstance (ValueError msg) DatabaseUtilsError_cls = false.
Proof.
  intros today value ty descr aclass curr c Hc Hnone.
  eexists. split; [|repeat split].
  unfold resolve_or_create, bind.
  rewrite (resolve_open_result _ _ _ _ _ Hc), Hnone. reflexivity.
Qed.

Lemma resolve_or_create_empty_name_witness :
  is_connected fresh_connection = true /\
  fst (resolve 20240601 "7203" JP_CODE None fresh_connection) = Return None /\
  exists msg,
    resolve_or_create 20240601 "7203" JP_CODE EmptyString None None None
      fresh_connection
    = (Raise (ValueError msg), fresh_connection) /\
    isinstance (ValueError msg) ValueError_cls = true /\
    isinstance (ValueError msg) ValidationError_cls = false /\
    isinstance (ValueError msg) DatabaseUtilsError_cls = false.
Proof.
  split; [reflexivity|]. split; [reflexivity|].
  apply (resolve_or_create_empty_name 20240601 "7203" JP_CODE None None None
           fresh_connection); reflexivity.
Defined.

(** C6 as stated fails: what is raised is no ValidationError. *)
Lemma resolve_or_create_empty_name_not_validation_error :
  ~ exists e,
      fst (resolve_or_create 20240601 "7203" JP_CODE EmptyString
             None None None fresh_connection) = Raise e /\
      isinstance e ValidationError_cls = true.
Proof.
  intros (e & He & Hi). vm_compute in He. injection He as <-.
  discriminate Hi.
Qed.

(* ---------------------------------------------------------------------- *)
(** ** The creation path is two committed writes, not one unit *)

(** C1, at the failing input.  The code 7203 is held by security 1 under
    an association without start date that expired in 2023.  On
    2024-06-01 [resolve] misses it, [create] inserts and commits the
    security "Toyota Motor Corp", and the duplicate check of
    [add_identifier] then raises: the new security stays in the file
    without any association, nothing is rolled back, and the error is the
    bare DuplicateSecurityError, not a TransactionError. *)
Theorem resolve_or_create_leaves_orphan_security :
  fst (resolve 20240601 "7203" JP_CODE None expired_code) = Return None /\
  fst (resolve_or_create 20240601 "7203" JP_CODE "Toyota Motor Corp"
         None None None expired_code)
  = Raise (DuplicateSecurityError JP_CODE "7203") /\
  isinstance (DuplicateSecurityError JP_CODE "7203") TransactionError_cls
  = false /\
  securities
    (db_file (after (resolve_or_create 20240601 "7203" JP_CODE
                       "Toyota Motor Corp" None None None) expired_code))
  = (securities (db_file expired_code) ++
       [mkSecurity 2 "Toyota Motor Corp" None None None])%list /\
  security_identifiers
    (db_file (after (resolve_or_create 20240601 "7203" JP_CODE
                       "Toyota Motor Corp" None None None) expired_code))
  = security_identifiers (db_file expired_code) /\
  forall r,
    In r (security_identifiers
            (db_file (after (resolve_or_create 20240601 "7203" JP_CODE
                               "Toyota Motor Corp" None None None)
                        expired_code))) ->
    si_security_id r <> 2.
Proof.
  split; [reflexivity|]. split; [reflexivity|]. split; [reflexivity|].
  split; [reflexivity|]. split; [reflexivity|].
  intros r Hin. vm_compute in Hin. destruct Hin as [<- | []]. discriminate.
Qed.

(** The same happens for a type string the [identifier_types] table does
    not know: the foreign key rejects the association after the security
    is committed. *)
Example resolve_or_create_unknown_type :
  fst (resolve_or_create 20240601 "X1" "LEI" "Some Corp" None None None
         fresh_connection)
  = Raise (DatabaseError ForeignKeyConstraintFailed) /\
  List.length
    (securities
       (db_file (after (resolve_or_create 20240601 "X1" "LEI" "Some Corp"
                          None None None) fresh_connection))) = 1%nat.
Proof. split; reflexivity. Qed.

(** A caller's own [with db.transaction():] around the call does not
    help either: the [commit()] inside [create] has already written the
    security when the rollback comes. *)
Example resolve_or_create_in_transaction :
  fst (transaction
         (resolve_or_create 20240601 "7203" JP_CODE "Toyota Motor Corp"
            None None None) expired_code)
  = Raise (TransactionError (DuplicateSecurityError JP_CODE "7203")) /\
  map name
    (securities
       (db_file
          (after (transaction
                    (resolve_or_create 20240601 "7203" JP_CODE
                       "Toyota Motor Corp" None None None)) expired_code)))
  = ["Old Holder"; "Toyota Motor Corp"].
Proof. split; reflexivity. Qed.

(** [transaction] itself does what its docstring says: uncommitted
    writes of the body are rolled back and the error is wrapped. *)
Example transaction_rolls_back :
  fst (transaction
         (execute (InsertSecurity "A" None None None) ;;;
          execute (InsertIdentifier 99 JP_CODE "7203" 0 None None))
         fresh_connection)
  = Raise (TransactionError (DatabaseError ForeignKeyConstraintFailed)) /\
  after (transaction
           (execute (InsertSecurity "A" None None None) ;;;
            execute (InsertIdentifier 99 JP_CODE "7203" 0 None None)))
    fresh_connection
  = fresh_connection.
Proof. split; reflexivity. Qed.

(** C4, at the failing input.  In the same database two calls for the
    same (value, type) each insert and commit a security before raising:
    the second call creates a second security. *)
Theorem resolve_or_create_twice_two_securities :
  fst (resolve_or_create 20240601 "7203" JP_CODE "Toyota Motor Corp"
         None None None expired_code)
  = Raise (DuplicateSecurityError JP_CODE "7203") /\
  fst (resolve_or_create 20240601 "7203" JP_CODE "Toyota"
         None None None
         (after (resolve_or_create 20240601 "7203" JP_CODE
                   "Toyota Motor Corp" None None None) expired_code))
  = Raise (DuplicateSecurityError JP_CODE "7203") /\
  map name
    (securities
       (db_file
          (after (resolve_or_create 20240601 "7203" JP_CODE "Toyota"
                    None None None)
             (after (resolve_or_create 20240601 "7203" JP_CODE
                       "Toyota Motor Corp" None None None) expired_code))))
  = ["Old Holder"; "Toyota Motor Corp"; "Toyota"].
Proof. split; [reflexivity|]. split; reflexivity. Qed.

(* ---------------------------------------------------------------------- *)
(** ** What does hold of [resolve_or_create] when it returns *)

Lemma ready_connected c : ready c = true -> is_connected c = true.
Proof.
  unfold ready, is_connected. destruct (_conn c); [reflexivity | discriminate].
Qed.

(** An existing association is returned as it is; the name and the other
    attributes are not looked at and nothing is written. *)
Lemma resolve_or_create_existing today value ty nm descr aclass curr c sid :
  is_connected c = true ->
  fst (resolve today value ty None c) = Return (Some sid) ->
  resolve_or_create today value ty nm descr aclass curr c = (Return sid, c).
Proof.
  intros Hc Hfound. unfold resolve_or_create, bind.
  rewrite (resolve_open_result _ _ _ _ _ Hc), Hfound. reflexivity.
Qed.

Lemma select_resolve_none ty value d db :
  option_map row_security_id (hd_error (select_resolve ty value d db)) = None ->
  resolve_candidates ty value d db = [].
Proof.
  unfold select_resolve.
  destruct (limit_1_cases
              (order_by valid_from_desc_nulls_last
                 (resolve_candidates ty value d db))) as [He | [m Hm]].
  - intros _. now apply limit_1_order_by_empty in He.
  - rewrite Hm. discriminate.
Qed.

(** After the INSERT of the creation path the new association is the only
    candidate on the day of the call. *)
Lemma select_resolve_after_insert ty value d db new_id sid seq :
  resolve_candidates ty value d db = [] ->
  select_resolve ty value d
    (with_security_identifiers
       (security_identifiers db ++
          [mkSecurityIdentifier new_id sid ty value None None 0]) seq db)
  = [mkRow sid].
Proof.
  intros Hnone. unfold select_resolve, resolve_candidates in *. simpl.
  rewrite filter_app, Hnone. simpl.
  unfold same_identifier, contains_date. simpl.
  now rewrite !String.eqb_refl.
Qed.

(** Round trip: when [resolve_or_create] returns an id, [resolve] on the
    same day returns that id. *)
Lemma resolve_or_create_round_trip today value ty nm descr aclass curr c
  sid c' :
  ready c = true ->
  resolve_or_create today value ty nm descr aclass curr c = (Return sid, c') ->
  ready c' = true /\
  fst (resolve today value ty None c') = Return (Some sid).
Proof.
  intros Hr. destruct (ready_open _ Hr) as (seen & Hc & Hs).
  unfold resolve_or_create, bind at 1.
  rewrite (resolve_ready _ _ _ _ _ _ Hc Hs).
  destruct (option_map row_security_id _) as [s|] eqn:Hres.
  - intros [= <- <-]. split; [exact Hr|].
    now rewrite (resolve_ready _ _ _ _ _ _ Hc Hs), Hres.
  - destruct nm as [|ch nm]; [discriminate|].
    unfold bind at 1. rewrite (create_ready _ _ _ _ _ _ Hc Hs).
    set (seen1 := snd (insert_security (String ch nm) descr aclass curr seen)).
    set (new_id := lastrowid
                     (fst (insert_security (String ch nm) descr aclass curr
                             seen))).
    assert (Hc1 : _conn (committed seen1 c) = Some seen1) by reflexivity.
    assert (Hs1 : has_schema seen1 = true) by exact Hs.
    unfold bind.
    rewrite (add_identifier_ready _ _ _ _ _ _ _ _ Hc1 Hs1). cbv zeta.
    assert (Hins :
      match insert_identifier new_id ty value 0 None None seen1 with
      | inl e => (Raise (A := unit) (DatabaseError e), committed seen1 c)
      | inr (_, seen') => (Return tt, committed seen' (committed seen1 c))
      end = (Return tt, c') ->
      ready c' = true /\
      fst (resolve today value ty None c') = Return (Some new_id)).
    { destruct (insert_identifier _ _ _ _ _ _ seen1) as [e | [cur seen2]]
        eqn:Hi; [discriminate|].
      intros [= <-].
      destruct (insert_identifier_appends _ _ _ _ _ _ _ _ _ Hi)
        as (row_id & ->).
      split; [exact Hs|].
      match goal with
      | |- context [resolve _ _ _ _ (committed ?d ?cc)] =>
          rewrite (resolve_ready today value ty None (committed d cc) d
                     eq_refl Hs)
      end.
      cbn [fst effective_date].
      rewrite select_resolve_after_insert; [reflexivity|].
      apply select_resolve_none in Hres. exact Hres. }
    destruct (hd_error (select_duplicate ty value None seen1)) as [row|].
    + destruct (negb (row_security_id row =? new_id)); [discriminate|].
      destruct (match insert_identifier new_id ty value 0 None None seen1 with
                | inl e => _ | inr _ => _ end) as [[[]|e] c2] eqn:Hm;
        [|discriminate].
      intros [= <- <-]. now apply Hins.
    + destruct (match insert_identifier new_id ty value 0 None None seen1 with
                | inl e => _ | inr _ => _ end) as [[[]|e] c2] eqn:Hm;
        [|discriminate].
      intros [= <- <-]. now apply Hins.
Qed.

(** Idempotence on success: once a call has returned an id, a further call
    on the same day, whatever its name and attributes, returns the same id
    and writes nothing. *)
Lemma resolve_or_create_again today value ty nm descr aclass curr c sid c'
  nm' descr' aclass' curr' :
  ready c = true ->
  resolve_or_create today value ty nm descr aclass curr c = (Return sid, c') ->
  resolve_or_create today value ty nm' descr' aclass' curr' c'
  = (Return sid, c').
Proof.
  intros Hr Hcall.
  destruct (resolve_or_create_round_trip _ _ _ _ _ _ _ _ _ _ Hr Hcall)
    as (Hr' & Hres).
  apply resolve_or_create_existing; [now apply ready_connected | exact Hres].
Qed.

(** The creation path on a new database: test
    [test_resolve_or_create_new_security]. *)
Example resolve_or_create_new_security :
  fst (resolve_or_create 20240601 "AAPL" TICKER_YAHOO "Apple Inc"
         None None (Some "USD") fresh_connection) = Return 1 /\
  fst (resolve_or_create 20240601 "AAPL" TICKER_YAHOO "Should not change"
         None None None
         (after (resolve_or_create 20240601 "AAPL" TICKER_YAHOO "Apple Inc"
                   None None (Some "USD")) fresh_connection)) = Return 1 /\
  map name
    (securities
       (db_file
          (after (resolve_or_create 20240601 "AAPL" TICKER_YAHOO
                    "Should not change" None None None)
             (after (resolve_or_create 20240601 "AAPL" TICKER_YAHOO
                       "Apple Inc" None None (Some "USD"))
                fresh_connection))))
  = ["Apple Inc"].
Proof. split; [reflexivity|]. split; reflexivity. Qed.

(* ===================================================================== *)
(** * The [best_prices] view *)
(* ===================================================================== *)















(** The overlay scenario: the priority-10 row wins; with that source
    deactivated the priority-50 row is selected, from the same fact rows. *)
Example best_prices_scenario :
  map (fun r => (bp_source_code r, bp_source_priority r, bp_close r))
    (best_prices two_reports)
  = [("YFINANCE", 10, 100 # 1)] /\
  map (fun r => (bp_source_code r, bp_source_priority r, bp_close r))
    (best_prices (deactivate_source 1 two_reports))
  = [("EXCEL_IMPORT", 50, 101 # 1)] /\
  price_data (deactivate_source 1 two_reports) = price_data two_reports.
Proof. split; [reflexivity|]. split; reflexivity. Qed.

(* ===================================================================== *)
(** * More on the detector: which strings get which type *)
(* ===================================================================== *)

Lemma length_append (s1 s2 : string) :
  String.length (s1 ++ s2)%string
  = (String.length s1 + String.length s2)%nat.
Proof. induction s1 as [|c s1 IH]; simpl; [reflexivity | now rewrite IH]. Qed.

Lemma lang_length p body :
  Re.lang p body ->
  String.length body = fold_right (fun item n => (snd item + n)%nat) O p.
Proof.
  induction 1 as [|a n p s1 s2 H1 _ IH]; [reflexivity|].
  rewrite length_append, (ReFacts.repeat_lang_length _ _ _ H1), IH.
  reflexivity.
Qed.

Lemma pattern_holds_length t s :
  pattern_holds t s ->
  String.length s = code_length t \/ String.length s = S (code_length t).
Proof.
  intros (p & Hp & body & Hb & Hs). unfold code_length. rewrite Hp.
  apply lang_length in Hb. destruct Hs as [-> | ->]; [now left | right].
  rewrite length_append, Hb. simpl. lia.
Qed.

Lemma dict_get_in {V : Type} (d : dict string V) k v :
  dict_get d k = Some v -> In (k, v) d.
Proof.
  induction d as [|[k' v'] d IH]; simpl; [discriminate|].
  destruct (String.eqb_spec k' k) as [-> | _].
  - intros [= ->]. now left.
  - intros H. right. now apply IH.
Qed.

Lemma pattern_holds_key t s :
  pattern_holds t s ->
  t = FIGI \/ t = ISIN \/ t = CUSIP \/ t = SEDOL \/ t = JP_CODE.
Proof.
  intros (p & Hp & _). apply dict_get_in in Hp.
  unfold IDENTIFIER_PATTERNS in Hp. simpl in Hp.
  repeat (destruct Hp as [[= <- _] | Hp]; [tauto|]). destruct Hp.
Qed.

Lemma code_lengths :
  code_length FIGI = 12%nat /\ code_length ISIN = 12%nat /\
  code_length CUSIP = 9%nat /\ code_length SEDOL = 7%nat /\
  code_length JP_CODE = 4%nat.
Proof. repeat split. Qed.

Lemma not_both_lengths t u s :
  pattern_holds t s -> pattern_holds u s ->
  code_length t = code_length u.
Proof.
  intros Ht Hu.
  pose proof (pattern_holds_length _ _ Ht) as Lt.
  pose proof (pattern_holds_length _ _ Hu) as Lu.
  destruct code_lengths as (L1 & L2 & L3 & L4 & L5).
  destruct (pattern_holds_key _ _ Ht) as [-> | [-> | [-> | [-> | ->]]]];
    destruct (pattern_holds_key _ _ Hu) as [-> | [-> | [-> | [-> | ->]]]];
    rewrite ?L1, ?L2, ?L3, ?L4, ?L5 in *; lia.
Qed.

Lemma not_matches_other_length t u s :
  pattern_holds t s -> code_length t <> code_length u -> ~ matches u s.
Proof.
  intros Ht Hne Hu. apply matches_pattern_holds in Hu.
  apply Hne. eapply not_both_lengths; eauto.
Qed.

(** X1.  The order of the detector matters for one pair only.  A string
    is classified as FIGI, CUSIP, SEDOL or JP_CODE exactly when it is in
    that pattern, and as ISIN exactly when it is in the ISIN pattern and
    not in the FIGI pattern. *)
Theorem detect_identifier_type_exact : forall (s : string) (t : IdentifierType),
  detect_identifier_type s = Some t <->
  pattern_holds t s /\ (t = ISIN -> ~ pattern_holds FIGI s).
Proof.
  intros s t. rewrite detect_as_loop. split.
  - intros H. apply detect_loop_first in H as (b & a & Ho & Ht & Hb).
    split; [now apply matches_pattern_holds|].
    intros -> Hfigi. apply (Hb FIGI).
    + destruct b as [|x b]; [discriminate Ho|].
      injection Ho as <- _. simpl; auto.
    + now apply matches_pattern_holds.
  - intros (Ht & Hisin).
    pose proof Ht as Hm. apply matches_pattern_holds in Hm.
    destruct code_lengths as (L1 & L2 & L3 & L4 & L5).
    unfold DETECTION_ORDER.
    destruct (pattern_holds_key _ _ Ht) as [-> | [-> | [-> | [-> | ->]]]].
    + now apply detect_loop_hit.
    + rewrite detect_loop_skip.
      * now apply detect_loop_hit.
      * intros Hf. apply Hisin; [reflexivity|].
        now apply matches_pattern_holds.
    + rewrite !detect_loop_skip
        by (apply (not_matches_other_length _ _ _ Ht); congruence).
      now apply detect_loop_hit.
    + rewrite !detect_loop_skip
        by (apply (not_matches_other_length _ _ _ Ht); congruence).
      now apply detect_loop_hit.
    + rewrite !detect_loop_skip
        by (apply (not_matches_other_length _ _ _ Ht); congruence).
      now apply detect_loop_hit.
Qed.

Lemma repeat_lang_alnum a n body :
  atom_alnum a -> Re.repeat_lang a n body ->
  Forall (fun c => alnum c = true) (list_ascii_of_string body).
Proof.
  intros Ha. induction 1 as [|n c s Hc _ IH]; simpl; constructor; auto.
Qed.

Lemma list_ascii_of_string_app s1 s2 :
  list_ascii_of_string (s1 ++ s2)%string
  = (list_ascii_of_string s1 ++ list_ascii_of_string s2)%list.
Proof. induction s1 as [|c s1 IH]; simpl; [reflexivity | now rewrite IH]. Qed.

Lemma lang_alnum p body :
  Forall (fun item => atom_alnum (fst item)) p -> Re.lang p body ->
  Forall (fun c => alnum c = true) (list_ascii_of_string body).
Proof.
  intros Hp Hl. induction Hl as [|a n p s1 s2 H1 _ IH]; [constructor|].
  inversion Hp as [|? ? Ha Hp']; subst.
  rewrite list_ascii_of_string_app. apply Forall_app. split.
  - eapply repeat_lang_alnum; eauto.
  - now apply IH.
Qed.

Lemma lit_alnum x : alnum x = true -> atom_alnum (Re.Lit x).
Proof. intros Hx c Hc. simpl in Hc. apply Ascii.eqb_eq in Hc. now subst. Qed.

Lemma class_alnum ranges :
  (forall r, In r ranges -> r = Re.upper \/ r = Re.digit) ->
  atom_alnum (Re.Class ranges).
Proof.
  intros Hr c Hc. simpl in Hc. apply existsb_exists in Hc as (r & Hin & Hc).
  unfold alnum, Re.accepts. cbn [existsb].
  destruct (Hr r Hin) as [-> | ->]; rewrite Hc;
    [reflexivity | apply orb_true_r].
Qed.

Lemma patterns_alnum t p :
  dict_get IDENTIFIER_PATTERNS t = Some p ->
  Forall (fun item => atom_alnum (fst item)) p.
Proof.
  intros Hp. apply dict_get_in in Hp.
  unfold IDENTIFIER_PATTERNS in Hp. simpl in Hp.
  repeat (destruct Hp as [[= _ <-] | Hp];
          [repeat constructor;
           first [ apply lit_alnum; reflexivity
                 | apply class_alnum; simpl; intuition ] |]).
  destruct Hp.
Qed.

(** X2.  What a classified string looks like: apart from one final
    newline it consists of uppercase letters and digits only, and it has
    exactly 12 characters for FIGI and ISIN, 9 for CUSIP, 7 for SEDOL and
    4 for JP_CODE.  Anything with another character or another length is
    left unclassified. *)
Theorem detect_identifier_type_shape : forall (s : string) (t : IdentifierType),
  detect_identifier_type s = Some t ->
  exists body,
    is_body body s /\
    Forall (fun c => alnum c = true) (list_ascii_of_string body) /\
    String.length body = code_length t /\
    (t = FIGI /\ code_length t = 12%nat \/
     t = ISIN /\ code_length t = 12%nat \/
     t = CUSIP /\ code_length t = 9%nat \/
     t = SEDOL /\ code_length t = 7%nat \/
     t = JP_CODE /\ code_length t = 4%nat).
Proof.
  intros s t H. rewrite detect_as_loop in H.
  apply detect_loop_first in H as (_ & _ & _ & Ht & _).
  apply matches_pattern_holds in Ht.
  pose proof (pattern_holds_key _ _ Ht) as Hkey.
  destruct Ht as (p & Hp & body & Hb & Hs).
  exists body. split; [exact Hs|]. split; [|split].
  - exact (lang_alnum p body (patterns_alnum t p Hp) Hb).
  - unfold code_length. rewrite Hp. now apply lang_length.
  - destruct Hkey as [-> | [-> | [-> | [-> | ->]]]]; auto 10.
Qed.

Example detect_rejects_other_characters :
  detect_identifier_type "us0378331005" = None /\
  detect_identifier_type "0378 3100" = None /\
  detect_identifier_type "72030" = None /\
  detect_identifier_type "BBG000B9XRY" = None.
Proof. repeat split. Qed.

Lemma detect_identifier_type_shape_witness :
  detect_identifier_type "7203" = Some JP_CODE /\
  exists body,
    is_body body "7203" /\
    Forall (fun c => alnum c = true) (list_ascii_of_string body) /\
    String.length body = code_length JP_CODE.
Proof.
  split; [reflexivity|].
  destruct (detect_identifier_type_shape "7203" JP_CODE eq_refl)
    as (body & Hb & Ha & Hl & _).
  exists body. split; [exact Hb | split; [exact Ha | exact Hl]].
Defined.

(* ===================================================================== *)
(** * [create] and [get] *)
(* ===================================================================== *)


Lemma next_rowid_above seq ids :
  seq < next_rowid seq ids /\ forall x, In x ids -> x < next_rowid seq ids.
Proof.
  unfold next_rowid. induction ids as [|y ids [IH1 IH2]]; simpl.
  - split; [lia | intros x []].
  - split; [lia|]. intros x [<- | Hx]; [lia|]. specialize (IH2 x Hx). lia.
Qed.

(** A SELECT on an open connection with the tables in place. *)
Lemma fetchone_select_ready {R : Type} (q : Select R) c seen :
  _conn c = Some seen -> has_schema seen = true ->
  fetchone_select q c = (Return (hd_error (select_rows q seen)), c).
Proof.
  intros Hc Hs. unfold fetchone_select, execute_select, bind.
  now rewrite (connect_open _ _ Hc), Hc, Hs.
Qed.

Lemma fetchall_select_ready {R : Type} (q : Select R) c seen :
  _conn c = Some seen -> has_schema seen = true ->
  fetchall_select q c = (Return (select_rows q seen), c).
Proof.
  intros Hc Hs. unfold fetchall_select, execute_select, bind.
  now rewrite (connect_open _ _ Hc), Hc, Hs.
Qed.

(** The two ways of writing a SELECT agree where both are given. *)
Lemma fetchone_select_agrees ty value d c :
  fetchone (SelectResolve ty value d) c
  = fetchone_select
      (mkSelect "security_identifiers" (select_resolve ty value d)) c.
Proof.
  unfold fetchone, fetchone_select, execute, execute_select, bind.
  destruct (connect c) as [[[]|e] c1]; [|reflexivity].
  destruct (_conn c1) as [seen|] eqn:Hc; [|reflexivity].
  simpl. destruct (has_schema seen); simpl; [|reflexivity].
  now rewrite (same_connection _ _ Hc).
Qed.

Lemma security_eta (r : Security) :
  mkSecurity (security_id r) (name r) (description r) (asset_class r)
    (currency r) = r.
Proof. now destruct r. Qed.

Lemma get_ready sid c seen :
  _conn c = Some seen -> has_schema seen = true ->
  get sid c
  = (Return (hd_error (filter (fun s => security_id s =? sid)
                         (securities seen))), c).
Proof.
  intros Hc Hs. unfold get, bind.
  rewrite (fetchone_select_ready _ _ _ Hc Hs). simpl.
  destruct (hd_error _) as [r|]; [|reflexivity].
  unfold ret. now rewrite security_eta.
Qed.



(** X4.  [get] on an open, initialised connection returns a row with the
    id asked for and changes nothing; it returns None exactly when no row
    has the id; with ids distinct it returns the row with that id. *)
Theorem get_finds_the_row :
  forall (sid : SecurityId) (c : DatabaseConnection),
  ready c = true ->
  exists result,
    get sid c = (Return result, c) /\
    (result = None <->
     forall s, In s (securities (content c)) -> security_id s <> sid) /\
    (forall s, result = Some s ->
       In s (securities (content c)) /\ security_id s = sid) /\
    (unique_security_ids (content c) ->
     forall s, In s (securities (content c)) -> security_id s = sid ->
               result = Some s).
Proof.
  intros sid c Hr. destruct (ready_open _ Hr) as (seen & Hc & Hs).
  unfold content. rewrite Hc, (get_ready _ _ _ Hc Hs).
  eexists. split; [reflexivity|].
  assert (Hsome : forall s,
            hd_error (filter (fun s => security_id s =? sid)
                        (securities seen)) = Some s ->
            In s (securities seen) /\ security_id s = sid).
  { intros s H. apply hd_error_filter_some in H as (b & t & Heq & Hid & _).
    apply Z.eqb_eq in Hid. split; [|exact Hid].
    rewrite Heq. apply in_or_app. right. simpl; auto. }
  split; [|split].
  - rewrite hd_error_filter_none. split; intros H s Hin.
    + apply Z.eqb_neq. auto.
    + apply Z.eqb_neq. auto.
  - exact Hsome.
  - intros Hnd s Hin Hid.
    destruct (hd_error _) as [s0|] eqn:Hh.
    + destruct (Hsome s0 eq_refl) as [Hin0 Hid0]. f_equal.
      apply (in_unique_key security_id (securities seen)); auto. congruence.
    + rewrite hd_error_filter_none in Hh. specialize (Hh s Hin).
      apply Z.eqb_neq in Hh. contradiction.
Qed.

Lemma get_finds_the_row_witness :
  ready two_securities = true /\
  exists result,
    get 2 two_securities = (Return result, two_securities) /\
    (result = None <->
     forall s, In s (securities (content two_securities)) ->
               security_id s <> 2).
Proof.
  split; [reflexivity|].
  destruct (get_finds_the_row 2 two_securities eq_refl)
    as (result & Heq & Hnone & _).
  exists result. split; [exact Heq | exact Hnone].
Defined.



(* ===================================================================== *)
(** * ORDER BY sorts, and loses no row *)
(* ===================================================================== *)

Section OrderBySorted.
Context {A : Type}.
Variable before : A -> A -> bool.
Hypothesis before_asym :
  forall x y, before x y = true -> before y x = false.
Hypothesis before_negtrans :
  forall x y z, before x z = true -> before x y = true \/ before y z = true.

Lemma insert_row_perm x tbl :
  Permutation (insert_row before x tbl) (x :: tbl).
Proof.
  induction tbl as [|y tbl IH]; simpl; [reflexivity|].
  destruct (before y x); [|reflexivity].
  rewrite IH. apply perm_swap.
Qed.

Lemma order_by_perm tbl : Permutation (order_by before tbl) tbl.
Proof.
  induction tbl as [|x tbl IH]; simpl; [reflexivity|].
  rewrite insert_row_perm. now constructor.
Qed.

Lemma insert_row_sorted x tbl :
  StronglySorted (fun a b => before b a = false) tbl ->
  StronglySorted (fun a b => before b a = false) (insert_row before x tbl).
Proof.
  induction 1 as [|y tbl Hs IH Hy]; simpl.
  - repeat constructor.
  - destruct (before y x) eqn:Hyx.
    + constructor; [exact IH|].
      rewrite Forall_forall in *. intros z Hz.
      apply in_insert_row in Hz as [-> | Hz]; [now apply before_asym | auto].
    + constructor; [now constructor|].
      constructor; [exact Hyx|].
      rewrite Forall_forall in *. intros z Hz.
      destruct (before z x) eqn:Hzx; [|reflexivity].
      destruct (before_negtrans _ y _ Hzx) as [H | H].
      * rewrite (Hy z Hz) in H. discriminate.
      * congruence.
Qed.

Lemma order_by_sorted tbl :
  StronglySorted (fun a b => before b a = false) (order_by before tbl).
Proof.
  induction tbl as [|x tbl IH]; simpl; [constructor|].
  now apply insert_row_sorted.
Qed.

End OrderBySorted.

Lemma StronglySorted_map {A B : Type} (R : A -> A -> Prop)
  (R' : B -> B -> Prop) (f : A -> B) (l : list A) :
  (forall a b, R a b -> R' (f a) (f b)) ->
  StronglySorted R l -> StronglySorted R' (map f l).
Proof.
  intros HR. induction 1 as [|a l Hs IH Ha]; simpl; constructor; auto.
  rewrite Forall_forall in *. intros b Hb.
  apply in_map_iff in Hb as (x & <- & Hx). auto.
Qed.

(* ---------------------------------------------------------------------- *)
(** ** Texts compare as a strict total order *)

Lemma ascii_compare_lt_trans a b c :
  Ascii.compare a b = Lt -> Ascii.compare b c = Lt -> Ascii.compare a c = Lt.
Proof.
  unfold Ascii.compare. rewrite !N.compare_lt_iff. lia.
Qed.

Lemma string_compare_lt_trans a b c :
  String.compare a b = Lt -> String.compare b c = Lt ->
  String.compare a c = Lt.
Proof.
  revert b c. induction a as [|x a IH]; intros [|y b] [|z c]; simpl;
    try discriminate; auto.
  destruct (Ascii.compare x y) eqn:Hxy; try discriminate.
  - apply Ascii.compare_eq_iff in Hxy. subst y.
    destruct (Ascii.compare x z); try discriminate; auto. apply IH.
  - intros _. destruct (Ascii.compare y z) eqn:Hyz; try discriminate.
    + apply Ascii.compare_eq_iff in Hyz. subst z. now rewrite Hxy.
    + intros _. now rewrite (ascii_compare_lt_trans _ _ _ Hxy Hyz).
Qed.

Lemma string_ltb_lt a b : String.ltb a b = true <-> String.compare a b = Lt.
Proof. unfold String.ltb. destruct (String.compare a b); split; congruence. Qed.

Lemma string_compare_refl a : String.compare a a = Eq.
Proof.
  induction a as [|x a IH]; simpl; [reflexivity|].
  unfold Ascii.compare. now rewrite N.compare_refl.
Qed.

Lemma string_ltb_asym a b : String.ltb a b = true -> String.ltb b a = false.
Proof.
  unfold String.ltb. rewrite (String.compare_antisym b a).
  now destruct (String.compare a b).
Qed.

Lemma string_ltb_irrefl a : String.ltb a a = false.
Proof. unfold String.ltb. now rewrite string_compare_refl. Qed.

Lemma string_trichotomy a b :
  String.ltb a b = true \/ a = b \/ String.ltb b a = true.
Proof.
  unfold String.ltb. rewrite (String.compare_antisym b a).
  destruct (String.compare a b) eqn:H; simpl; auto.
  right. left. now apply String.compare_eq_iff.
Qed.

Lemma string_ltb_trans a b c :
  String.ltb a b = true -> String.ltb b c = true -> String.ltb a c = true.
Proof. rewrite !string_ltb_lt. apply string_compare_lt_trans. Qed.

Lemma valid_from_asc_asym a b :
  valid_from_asc a b = true -> valid_from_asc b a = false.
Proof.
  destruct a, b; simpl; try discriminate; auto.
  rewrite Z.ltb_lt, Z.ltb_ge. lia.
Qed.

Lemma valid_from_asc_negtrans a b c :
  valid_from_asc a c = true ->
  valid_from_asc a b = true \/ valid_from_asc b c = true.
Proof.
  destruct a, b, c; simpl; try discriminate; auto.
  rewrite !Z.ltb_lt. lia.
Qed.

Lemma type_then_valid_from_asym a b :
  type_then_valid_from a b = true -> type_then_valid_from b a = false.
Proof.
  unfold type_then_valid_from.
  rewrite orb_true_iff, andb_true_iff, orb_false_iff, andb_false_iff.
  intros [Hlt | [Heq Hvf]].
  - split; [now apply string_ltb_asym|]. left.
    apply String.eqb_neq. intros E. rewrite E, string_ltb_irrefl in Hlt.
    discriminate.
  - apply String.eqb_eq in Heq. rewrite Heq. split.
    + apply string_ltb_irrefl.
    + right. now apply valid_from_asc_asym.
Qed.

Lemma type_then_valid_from_negtrans a b c :
  type_then_valid_from a c = true ->
  type_then_valid_from a b = true \/ type_then_valid_from b c = true.
Proof.
  unfold type_then_valid_from. rewrite !orb_true_iff, !andb_true_iff.
  intros Hac.
  destruct (string_trichotomy (identifier_type a) (identifier_type b))
    as [Hab | [Hab | Hba]].
  - auto.
  - rewrite <- Hab, String.eqb_refl.
    destruct Hac as [Hlt | [Heq Hvf]]; [auto|].
    destruct (valid_from_asc_negtrans _ (valid_from b) _ Hvf); auto.
  - right. left. destruct Hac as [Hlt | [Heq Hvf]].
    + eapply string_ltb_trans; eauto.
    + apply String.eqb_eq in Heq. now rewrite <- Heq.
Qed.

(* ===================================================================== *)
(** * [get_identifiers] *)
(* ===================================================================== *)

Lemma parse_date_id value : _parse_date value = value.
Proof. now destruct value. Qed.

Lemma get_identifiers_ready sid c seen :
  _conn c = Some seen -> has_schema seen = true ->
  get_identifiers sid c
  = (Return (map identifier_dict (select_rows (select_identifiers sid) seen)),
     c).
Proof.
  intros Hc Hs. unfold get_identifiers, bind.
  now rewrite (fetchall_select_ready _ _ _ Hc Hs).
Qed.

(** X6.  [get_identifiers] on an open, initialised connection changes
    nothing and returns the associations of the security, each exactly
    once and no other, ordered by identifier type (as text) and, within a
    type, by [valid_from] with the undated rows first. *)
Theorem get_identifiers_sorted_rows :
  forall (sid : SecurityId) (c : DatabaseConnection),
  ready c = true ->
  exists result,
    get_identifiers sid c = (Return result, c) /\
    Permutation result
      (map identifier_dict
         (filter (fun r => si_security_id r =? sid)
            (security_identifiers (content c)))) /\
    StronglySorted dict_in_order result /\
    (forall d, In d result -> d_security_id d = sid).
Proof.
  intros sid c Hr. destruct (ready_open _ Hr) as (seen & Hc & Hs).
  unfold content. rewrite Hc, (get_identifiers_ready _ _ _ Hc Hs).
  eexists. split; [reflexivity|]. simpl. split; [|split].
  - apply Permutation_map, order_by_perm.
  - apply (StronglySorted_map
             (fun a b => type_then_valid_from b a = false)).
    + intros a b H. unfold dict_in_order, dict_before. simpl.
      now rewrite !parse_date_id.
    + apply order_by_sorted.
      * apply type_then_valid_from_asym.
      * apply type_then_valid_from_negtrans.
  - intros d Hd. apply in_map_iff in Hd as (r & <- & Hin).
    apply in_order_by, filter_In in Hin as [_ Hid].
    now apply Z.eqb_eq in Hid.
Qed.

Lemma get_identifiers_sorted_rows_witness :
  ready renamed_ticker = true /\
  exists result,
    get_identifiers 1 renamed_ticker = (Return result, renamed_ticker) /\
    StronglySorted dict_in_order result.
Proof.
  split; [reflexivity|].
  destruct (get_identifiers_sorted_rows 1 renamed_ticker eq_refl)
    as (result & Heq & _ & Hs & _).
  exists result. split; [exact Heq | exact Hs].
Defined.

Example get_identifiers_examples :
  fst (get_identifiers 1 renamed_ticker)
  = Return [ mkSecurityIdentifierDict 1 1 TICKER_YAHOO "OLD.T"
               (Some 20200101) (Some 20231231) false;
             mkSecurityIdentifierDict 2 1 TICKER_YAHOO "NEW.T"
               (Some 20240101) None false ] /\
  fst (get_identifiers 9999 renamed_ticker) = Return [] /\
  fst (get 9999 renamed_ticker) = Return None.
Proof. repeat split. Qed.

(* ===================================================================== *)
(** * [add_identifier], then the read paths *)
(* ===================================================================== *)

(** What is known once [add_identifier] has returned: the three
    constraints let the row in, and the row is appended and committed. *)
Lemma add_identifier_returned sid ty value primary vfrom vto c seen c' :
  _conn c = Some seen -> has_schema seen = true ->
  add_identifier sid ty value primary vfrom vto c = (Return tt, c') ->
  c' = committed
         (with_security_identifiers
            (security_identifiers seen ++
               [mkSecurityIdentifier
                  (next_rowid (seq_security_identifiers seen)
                     (map si_id (security_identifiers seen)))
                  sid ty value vfrom vto (if primary then 1 else 0)])
            (next_rowid (seq_security_identifiers seen)
               (map si_id (security_identifiers seen))) seen) c /\
  existsb (unique_collision ty value vfrom) (security_identifiers seen)
  = false /\
  existsb (fun s => security_id s =? sid) (securities seen) = true /\
  existsb (fun t => String.eqb (type_code t) ty) (identifier_types seen)
  = true.
Proof.
  intros Hc Hs. rewrite (add_identifier_ready _ _ _ _ _ _ _ _ Hc Hs).
  cbv zeta.
  assert (Hins :
    match insert_identifier sid ty value (if primary then 1 else 0)
            vfrom vto seen with
    | inl e => (Raise (A := unit) (DatabaseError e), c)
    | inr (_, seen') => (Return tt, committed seen' c)
    end = (Return tt, c') ->
    c' = committed
           (with_security_identifiers
              (security_identifiers seen ++
                 [mkSecurityIdentifier
                    (next_rowid (seq_security_identifiers seen)
                       (map si_id (security_identifiers seen)))
                    sid ty value vfrom vto (if primary then 1 else 0)])
              (next_rowid (seq_security_identifiers seen)
                 (map si_id (security_identifiers seen))) seen) c /\
    existsb (unique_collision ty value vfrom) (security_identifiers seen)
    = false /\
    existsb (fun s => security_id s =? sid) (securities seen) = true /\
    existsb (fun t => String.eqb (type_code t) ty) (identifier_types seen)
    = true).
  { unfold insert_identifier.
    destruct (existsb (unique_collision ty value vfrom) _);
      [discriminate|].
    destruct (existsb (fun s => security_id s =? sid) _);
      [|discriminate].
    destruct (existsb (fun t => String.eqb (type_code t) ty) _);
      [|discriminate].
    simpl. intros [= <-]. auto. }
  destruct (hd_error (select_duplicate ty value vfrom seen)) as [row|];
    [destruct (negb (row_security_id row =? sid)); [discriminate|]|];
    exact Hins.
Qed.

(** X7.  Round trip: an association that [add_identifier] has added is
    in the answer of [get_identifiers] for its security, with the type,
    value, dates and primary flag that were passed; the answer has grown
    by this one entry, and the answers for other securities are as
    before. *)
Theorem get_identifiers_after_add_identifier :
  forall (sid : SecurityId) (ty : IdentifierType) (value : string)
         (primary : bool) (vfrom vto : option date)
         (c c' : DatabaseConnection),
  ready c = true ->
  add_identifier sid ty value primary vfrom vto c = (Return tt, c') ->
  exists new_id result,
    get_identifiers sid c' = (Return result, c') /\
    In (mkSecurityIdentifierDict new_id sid ty value vfrom vto primary)
      result /\
    List.length result
    = S (List.length (filter (fun r => si_security_id r =? sid)
                        (security_identifiers (content c)))) /\
    forall other, other <> sid ->
      fst (get_identifiers other c') = fst (get_identifiers other c).
Proof.
  intros sid ty value primary vfrom vto c c' Hr Hadd.
  destruct (ready_open _ Hr) as (seen & Hc & Hs).
  destruct (add_identifier_returned _ _ _ _ _ _ _ _ _ Hc Hs Hadd)
    as (-> & _).
  unfold content. rewrite Hc.
  set (new_id := next_rowid (seq_security_identifiers seen)
                   (map si_id (security_identifiers seen))).
  set (row := mkSecurityIdentifier new_id sid ty value vfrom vto
                (if primary then 1 else 0)).
  exists new_id. eexists.
  split; [apply get_identifiers_ready; [reflexivity | exact Hs]|].
  simpl. rewrite filter_app. simpl. rewrite Z.eqb_refl.
  split; [|split].
  - apply in_map_iff. exists row. split.
    + unfold identifier_dict, row. simpl. rewrite !parse_date_id.
      now destruct primary.
    + apply in_order_by, in_or_app. right. simpl; auto.
  - rewrite length_map, (Permutation_length (order_by_perm _ _)),
      length_app. simpl. lia.
  - intros other Hne.
    erewrite get_identifiers_ready; [|reflexivity|exact Hs].
    rewrite (get_identifiers_ready _ _ _ Hc Hs). simpl.
    rewrite filter_app. simpl.
    destruct (sid =? other) eqn:He; [apply Z.eqb_eq in He; congruence|].
    now rewrite app_nil_r.
Qed.

Lemma get_identifiers_after_add_identifier_witness :
  ready two_securities = true /\
  add_identifier 2 JP_CODE "7203" true (Some 20240101) None two_securities
  = (Return tt,
     after (add_identifier 2 JP_CODE "7203" true (Some 20240101) None)
       two_securities) /\
  exists new_id result,
    fst (get_identifiers 2
           (after (add_identifier 2 JP_CODE "7203" true (Some 20240101) None)
              two_securities)) = Return result /\
    In (mkSecurityIdentifierDict new_id 2 JP_CODE "7203" (Some 20240101)
          None true) result.
Proof.
  split; [reflexivity|]. split; [reflexivity|].
  destruct (get_identifiers_after_add_identifier 2 JP_CODE "7203" true
              (Some 20240101) None two_securities _ eq_refl eq_refl)
    as (new_id & result & Heq & Hin & _).
  exists new_id, result. split; [exact (f_equal fst Heq) | exact Hin].
Defined.

Lemma resolve_result_none ty value d db :
  option_map row_security_id (hd_error (select_resolve ty value d db)) = None
  <-> resolve_candidates ty value d db = [].
Proof.
  split; [apply select_resolve_none|].
  unfold select_resolve. now intros ->.
Qed.

Lemma resolve_result_some ty value d db :
  resolve_candidates ty value d db <> [] ->
  exists x,
    option_map row_security_id (hd_error (select_resolve ty value d db))
    = Some x.
Proof.
  intros Hne.
  destruct (option_map row_security_id _) as [x|] eqn:H; [eauto|].
  apply resolve_result_none in H. contradiction.
Qed.

(** X8.  Round trip: once [add_identifier] has returned, [resolve] of the
    same (type, value) finds a security on every date of the interval
    [valid_from, valid_to) that was passed, and finds the security the
    identifier was added to when no association for (type, value) held
    that date before.  For every other (type, value) and for dates
    outside the interval [resolve] answers as it did before. *)
Theorem resolve_after_add_identifier :
  forall (sid : SecurityId) (ty : IdentifierType) (value : string)
         (primary : bool) (vfrom vto : option date)
         (c c' : DatabaseConnection) (today d : date),
  ready c = true ->
  add_identifier sid ty value primary vfrom vto c = (Return tt, c') ->
  (within vfrom vto d ->
   exists x, fst (resolve today value ty (Some d) c') = Return (Some x)) /\
  (within vfrom vto d ->
   (forall r, ~ candidate ty value d (content c) r) ->
   fst (resolve today value ty (Some d) c') = Return (Some sid)) /\
  (forall ty' value',
     ~ (ty' = ty /\ value' = value /\ within vfrom vto d) ->
     fst (resolve today value' ty' (Some d) c')
     = fst (resolve today value' ty' (Some d) c)).
Proof.
  intros sid ty value primary vfrom vto c c' today d Hr Hadd.
  destruct (ready_open _ Hr) as (seen & Hc & Hs).
  destruct (add_identifier_returned _ _ _ _ _ _ _ _ _ Hc Hs Hadd)
    as (-> & _).
  unfold content. rewrite Hc.
  set (new_id := next_rowid (seq_security_identifiers seen)
                   (map si_id (security_identifiers seen))).
  set (row := mkSecurityIdentifier new_id sid ty value vfrom vto
                (if primary then 1 else 0)).
  set (seen' := with_security_identifiers
                  (security_identifiers seen ++ [row]) new_id seen).
  assert (Hres : forall ty' value',
            resolve today value' ty' (Some d) (committed seen' c)
            = (Return (option_map row_security_id
                         (hd_error (select_resolve ty' value' d seen'))),
               committed seen' c)).
  { intros. apply resolve_ready; [reflexivity | exact Hs]. }
  assert (Hcand : forall ty' value',
            resolve_candidates ty' value' d seen'
            = (resolve_candidates ty' value' d seen ++
               if same_identifier ty' value' row && contains_date d row
               then [row] else [])%list).
  { intros. unfold resolve_candidates. simpl. now rewrite filter_app. }
  assert (Hrow : within vfrom vto d ->
            same_identifier ty value row && contains_date d row = true).
  { intros Hw. apply andb_true_iff. split.
    - now apply same_identifier_true.
    - now apply contains_date_true. }
  split; [|split].
  - intros Hw. rewrite Hres. cbn [fst].
    destruct (resolve_result_some ty value d seen') as (x & Hx).
    + rewrite Hcand, (Hrow Hw). intros E.
      now apply app_eq_nil in E as [_ E].
    + exists x. now rewrite Hx.
  - intros Hw Hnone. rewrite Hres. simpl.
    unfold select_resolve. rewrite Hcand, (Hrow Hw).
    replace (resolve_candidates ty value d seen) with
      (@nil SecurityIdentifier); [reflexivity|].
    destruct (resolve_candidates ty value d seen) as [|r l] eqn:E;
      [reflexivity|].
    exfalso. apply (Hnone r). apply in_resolve_candidates.
    rewrite E. simpl; auto.
  - intros ty' value' Hnot. rewrite Hres.
    rewrite (resolve_ready _ _ _ _ _ _ Hc Hs). simpl.
    unfold select_resolve. rewrite Hcand.
    destruct (same_identifier ty' value' row && contains_date d row)
      eqn:E; [|now rewrite app_nil_r].
    exfalso. apply Hnot. apply andb_true_iff in E as [E1 E2].
    apply same_identifier_true in E1 as [E1 E1'].
    apply contains_date_true in E2. simpl in E1, E1'. auto.
Qed.

Lemma resolve_after_add_identifier_witness :
  ready two_securities = true /\
  add_identifier 2 JP_CODE "7203" true (Some 20240101) None two_securities
  = (Return tt,
     after (add_identifier 2 JP_CODE "7203" true (Some 20240101) None)
       two_securities) /\
  within (Some 20240101) None 20240601 /\
  (forall r, ~ candidate JP_CODE "7203" 20240601 (content two_securities) r) /\
  fst (resolve 20250101 "7203" JP_CODE (Some 20240601)
         (after (add_identifier 2 JP_CODE "7203" true (Some 20240101) None)
            two_securities)) = Return (Some 2).
Proof.
  assert (Hw : within (Some 20240101) None 20240601).
  { split; [intros f [= <-]; lia | intros t [=]]. }
  assert (Hn : forall r,
             ~ candidate JP_CODE "7203" 20240601 (content two_securities) r).
  { intros r (Hin & Ht & _). vm_compute in Hin. destruct Hin as [<- | []].
    discriminate Ht. }
  split; [reflexivity|]. split; [reflexivity|].
  split; [exact Hw|]. split; [exact Hn|].
  exact (proj1 (proj2 (resolve_after_add_identifier 2 JP_CODE "7203" true
                         (Some 20240101) None two_securities _ 20250101
                         20240601 eq_refl eq_refl)) Hw Hn).
Defined.

(* ===================================================================== *)
(** * [get_by_identifier] *)
(* ===================================================================== *)

Lemma in_identifier_join db s si :
  In (s, si) (identifier_join db) <->
  In s (securities db) /\ In si (security_identifiers db) /\
  security_id s = si_security_id si.
Proof.
  unfold identifier_join. rewrite in_flat_map. split.
  - intros (s0 & Hs & Hin). apply in_map_iff in Hin as (si0 & [= <- <-] & Hf).
    apply filter_In in Hf as (Hsi & Heq). apply Z.eqb_eq in Heq. auto.
  - intros (Hs & Hsi & Heq). exists s. split; [exact Hs|].
    apply in_map_iff. exists si. split; [reflexivity|].
    apply filter_In. split; [exact Hsi | now apply Z.eqb_eq].
Qed.

Lemma get_by_identifier_ready today ty value as_of c seen :
  _conn c = Some seen -> has_schema seen = true ->
  get_by_identifier today ty value as_of c
  = (Return (hd_error
               (select_rows
                  (select_by_identifier ty value
                     (effective_date today as_of)) seen)), c).
Proof.
  intros Hc Hs. unfold get_by_identifier, bind.
  fold (effective_date today as_of).
  rewrite (fetchone_select_ready _ _ _ Hc Hs).
  destruct (hd_error _) as [r|]; [|reflexivity].
  unfold ret. now rewrite security_eta.
Qed.

Lemma in_joined_candidates ty value d db s r :
  In (s, r)
    (filter (fun q => same_identifier ty value (snd q) &&
                      contains_date d (snd q)) (identifier_join db)) <->
  In s (securities db) /\ candidate ty value d db r /\
  security_id s = si_security_id r.
Proof.
  rewrite filter_In, in_identifier_join, andb_true_iff. simpl.
  rewrite same_identifier_true, contains_date_true. unfold candidate. tauto.
Qed.

(** X9.  [get_by_identifier] on an open, initialised connection changes
    nothing and returns a security that owns an association for (type,
    value) whose interval contains the date, one with the latest
    [valid_from] (NULL earliest) among the associations whose security
    exists; it returns None exactly when there is no such association.
    When every association points to an existing security it finds a
    security exactly when [resolve] finds one. *)
Theorem get_by_identifier_point_in_time :
  forall (today : date) (ty : IdentifierType) (value : string)
         (as_of : option date) (c : DatabaseConnection),
  ready c = true ->
  exists result,
    get_by_identifier today ty value as_of c = (Return result, c) /\
    (result = None <->
     forall s r,
       In s (securities (content c)) ->
       candidate ty value (effective_date today as_of) (content c) r ->
       security_id s <> si_security_id r) /\
    (forall s, result = Some s ->
       In s (securities (content c)) /\
       exists r,
         candidate ty value (effective_date today as_of) (content c) r /\
         si_security_id r = security_id s /\
         forall s' r',
           In s' (securities (content c)) ->
           candidate ty value (effective_date today as_of) (content c) r' ->
           security_id s' = si_security_id r' ->
           valid_from_le (valid_from r') (valid_from r)) /\
    (referential_integrity (content c) ->
     (result = None <->
      fst (resolve today value ty as_of c) = Return None)).
Proof.
  intros today ty value as_of c Hr.
  destruct (ready_open _ Hr) as (seen & Hc & Hs).
  unfold content. rewrite Hc.
  rewrite (get_by_identifier_ready _ _ _ _ _ _ Hc Hs).
  set (d := effective_date today as_of).
  eexists. split; [reflexivity|]. simpl.
  set (joined := filter (fun q => same_identifier ty value (snd q) &&
                                  contains_date d (snd q))
                   (identifier_join seen)).
  set (before := fun a b : Security * SecurityIdentifier =>
                   valid_from_desc_nulls_last (snd a) (snd b)).
  assert (Hasym : forall x y, before x y = true -> before y x = false)
    by (intros; now apply valid_from_desc_asym).
  assert (Hneg : forall x y z, before x z = true ->
                   before x y = true \/ before y z = true)
    by (intros x y z; apply valid_from_desc_negtrans).
  assert (Hnone :
    hd_error (map fst (limit_1 (order_by before joined))) = None <->
    forall s r, In s (securities seen) -> candidate ty value d seen r ->
                security_id s <> si_security_id r).
  { destruct (limit_1_cases (order_by before joined)) as [He | [m Hm]].
    - rewrite He. simpl. split; [|reflexivity]. intros _ s r Hin Hcand Heq.
      apply limit_1_order_by_empty in He.
      assert (Hj : In (s, r) joined) by (apply in_joined_candidates; auto).
      now rewrite He in Hj.
    - rewrite Hm. simpl. split; [discriminate|]. intros H. exfalso.
      destruct (limit_1_order_by_head _ Hasym Hneg _ _ Hm) as [Hin _].
      destruct m as [s r]. apply in_joined_candidates in Hin
        as (Hs' & Hcand & Heq). exact (H s r Hs' Hcand Heq). }
  split; [exact Hnone|]. split.
  - intros s Hsome.
    destruct (limit_1_cases (order_by before joined)) as [He | [m Hm]].
    + rewrite He in Hsome. discriminate.
    + rewrite Hm in Hsome. simpl in Hsome. injection Hsome as <-.
      destruct (limit_1_order_by_head _ Hasym Hneg _ _ Hm) as [Hin Hmax].
      destruct m as [s r]. simpl.
      apply in_joined_candidates in Hin as (Hs' & Hcand & Heq).
      split; [exact Hs'|]. exists r. split; [exact Hcand|].
      split; [now symmetry|]. intros s' r' Hs'' Hcand' Heq'.
      apply not_before_valid_from_le.
      apply (Hmax (s', r')). now apply in_joined_candidates.
  - intros Hri. rewrite Hnone, (resolve_ready _ _ _ _ _ _ Hc Hs).
    cbn [fst]. fold d. split.
    + intros H. f_equal. apply resolve_result_none.
      destruct (resolve_candidates ty value d seen) as [|r l] eqn:E;
        [reflexivity|]. exfalso.
      assert (Hcand : candidate ty value d seen r)
        by (apply in_resolve_candidates; rewrite E; simpl; auto).
      destruct (Hri r (proj1 Hcand)) as (s & Hin & Heq).
      exact (H s r Hin Hcand Heq).
    + intros [= H] s r Hin Hcand Heq.
      apply resolve_result_none in H.
      apply in_resolve_candidates in Hcand. now rewrite H in Hcand.
Qed.

Lemma get_by_identifier_point_in_time_witness :
  ready renamed_ticker = true /\
  exists result,
    get_by_identifier 20240601 TICKER_YAHOO "NEW.T" None renamed_ticker
    = (Return result, renamed_ticker) /\
    (forall s, result = Some s -> In s (securities (content renamed_ticker))).
Proof.
  split; [reflexivity|].
  destruct (get_by_identifier_point_in_time 20240601 TICKER_YAHOO "NEW.T"
              None renamed_ticker eq_refl) as (result & Heq & _ & Hs & _).
  exists result. split; [exact Heq|]. intros s H. now apply Hs.
Defined.

Example get_by_identifier_examples :
  fst (get_by_identifier 20240601 TICKER_YAHOO "NEW.T" None renamed_ticker)
  = Return (Some (mkSecurity 1 "Test Corp" None None None)) /\
  fst (get_by_identifier 20240601 TICKER_YAHOO "OLD.T" None renamed_ticker)
  = Return None /\
  fst (get_by_identifier 20240601 TICKER_YAHOO "OLD.T" (Some 20230615)
         renamed_ticker)
  = Return (Some (mkSecurity 1 "Test Corp" None None None)).
Proof. repeat split. Qed.

(* ===================================================================== *)
(** * The connection: [transaction], [with db:], [initialize] *)
(* ===================================================================== *)

Lemma connect_returns c : fst (connect c) = Return tt.
Proof.
  unfold connect. destruct (_conn c); [reflexivity|].
  now destruct (_auto_initialize c && negb (_initialized c)).
Qed.

Lemma connect_result c : connect c = (Return tt, after connect c).
Proof.
  pose proof (connect_returns c) as H. unfold after.
  destruct (connect c) as [o c1]. simpl in *. now subst o.
Qed.

Lemma connect_is_connected c : is_connected (after connect c) = true.
Proof.
  unfold after, connect, is_connected. destruct (_conn c) eqn:H; simpl.
  - now rewrite H.
  - now destruct (_auto_initialize c && negb (_initialized c)).
Qed.

(** X10.  [with db.transaction(): body], for any body that leaves the
    connection open.  If the body returns, its result is returned and
    everything the connection had written is committed.  If the body
    raises, the writes it had not committed itself are rolled back, the
    file is as the body left it, and the exception is raised again
    wrapped in a TransactionError (a DatabaseError).  Either way nothing
    is left pending. *)
Theorem transaction_commits_or_rolls_back :
  forall (A : Type) (body : M A) (c : DatabaseConnection),
  is_connected (after body (after connect c)) = true ->
  is_connected (after (transaction body) c) = true /\
  clean (after (transaction body) c) /\
  (forall a, fst (body (after connect c)) = Return a ->
     fst (transaction body c) = Return a /\
     db_file (after (transaction body) c)
     = content (after body (after connect c))) /\
  (forall e, fst (body (after connect c)) = Raise e ->
     fst (transaction body c) = Raise (TransactionError e) /\
     db_file (after (transaction body) c)
     = db_file (after body (after connect c)) /\
     isinstance (TransactionError e) DatabaseError_cls = true).
Proof.
  intros A body c Hopen.
  assert (Ht : transaction body c
               = match body (after connect c) with
                 | (Return a, c') => (commit ;;; ret a) c'
                 | (Raise e, c') =>
                     (rollback ;;; raise (TransactionError e)) c'
                 end).
  { unfold transaction, bind. now rewrite (connect_result c). }
  unfold after in *. rewrite Ht. clear Ht.
  destruct (body (snd (connect c))) as [[a|e] c2]; simpl in *;
    unfold is_connected in Hopen;
    destruct (_conn c2) as [seen|] eqn:Hc; try discriminate;
    unfold bind, commit, rollback, ret, raise, is_connected, clean, content;
    rewrite Hc; simpl.
  - split; [reflexivity|]. split; [reflexivity|]. split.
    + intros a' [= <-]. now split.
    + intros e' [=].
  - split; [reflexivity|]. split; [reflexivity|]. split.
    + intros a' [=].
    + intros e' [= <-]. repeat split.
Qed.

Lemma transaction_commits_or_rolls_back_witness :
  is_connected
    (after (execute (InsertIdentifier 99 JP_CODE "7203" 0 None None))
       (after connect fresh_connection)) = true /\
  fst (transaction (execute (InsertIdentifier 99 JP_CODE "7203" 0 None None))
         fresh_connection)
  = Raise (TransactionError (DatabaseError ForeignKeyConstraintFailed)) /\
  clean (after (transaction
                  (execute (InsertIdentifier 99 JP_CODE "7203" 0 None None)))
           fresh_connection).
Proof.
  split; [reflexivity|].
  destruct (transaction_commits_or_rolls_back Cursor
              (execute (InsertIdentifier 99 JP_CODE "7203" 0 None None))
              fresh_connection eq_refl) as (_ & Hclean & _ & Hraise).
  split; [|exact Hclean].
  exact (proj1 (Hraise (DatabaseError ForeignKeyConstraintFailed) eq_refl)).
Defined.

(** X11.  [with db: body] connects, runs the body and closes the
    connection whether the body returns or raises; the outcome of the
    body is passed on unchanged (an exception is not wrapped), and, as
    the block itself never commits, what the body wrote without
    committing is gone: afterwards the database is the file as the body
    left it. *)
Theorem with_connection_never_commits :
  forall (A : Type) (body : M A) (c : DatabaseConnection),
  fst (with_connection body c) = fst (body (after connect c)) /\
  is_connected (after (with_connection body) c) = false /\
  db_file (after (with_connection body) c)
  = db_file (after body (after connect c)) /\
  content (after (with_connection body) c)
  = db_file (after body (after connect c)) /\
  (initialises_on_connect (after (with_connection body) c) = false ->
   content (after connect (after (with_connection body) c))
   = db_file (after body (after connect c))).
Proof.
  intros A body c.
  assert (Hw : with_connection body c
               = (fst (body (after connect c)),
                  snd (close_connection (after body (after connect c))))).
  { unfold with_connection, bind. rewrite (connect_result c).
    unfold after. now destruct (body (snd (connect c))). }
  set (cb := after body (after connect c)) in *.
  assert (Hclose : is_connected (snd (close_connection cb)) = false /\
                   db_file (snd (close_connection cb)) = db_file cb /\
                   content (snd (close_connection cb)) = db_file cb).
  { unfold close_connection, is_connected, content.
    destruct (_conn cb) eqn:H; simpl; [auto|]. now rewrite H. }
  assert (Ha : after (with_connection body) c = snd (close_connection cb))
    by (unfold after at 1; now rewrite Hw).
  rewrite Ha, Hw. cbn [fst].
  destruct Hclose as (H1 & H2 & H3).
  split; [reflexivity|]. split; [exact H1|]. split; [exact H2|].
  split; [exact H3|].
  intros Hni.
  destruct (connect_without_initialise _ Hni) as (_ & (_ & Hsame) & _).
  now rewrite Hsame.
Qed.

Example with_connection_loses_uncommitted_insert :
  fst (with_connection (execute (InsertSecurity "A" None None None))
         fresh_connection) = Return (mkCursor [] 1) /\
  securities
    (content (after connect
                (after (with_connection
                          (execute (InsertSecurity "A" None None None)))
                   fresh_connection))) = [] /\
  map name
    (securities
       (content (after connect
                   (after (with_connection
                             (create "A" None None None))
                      fresh_connection)))) = ["A"].
Proof. repeat split. Qed.

(** X12.  [initialize()] on a closed connection made with
    [auto_initialize=False] only connects: [connect()] is left to call
    [initialize_schema], which it does for auto-initialising connections
    only, so no table is created, nothing is written and [_initialized]
    stays false.  A second [initialize()], on the connection that is now
    open, runs [initialize_schema] and commits. *)
Theorem initialize_closed_connection_only_connects :
  forall c : DatabaseConnection,
  _conn c = None -> _auto_initialize c = false ->
  fst (initialize c) = Return tt /\
  is_connected (after initialize c) = true /\
  content (after initialize c) = db_file c /\
  db_file (after initialize c) = db_file c /\
  _initialized (after initialize c) = _initialized c /\
  content (after initialize (after initialize c))
  = initialize_schema (db_file c) /\
  db_file (after initialize (after initialize c))
  = initialize_schema (db_file c) /\
  _initialized (after initialize (after initialize c)) = true.
Proof.
  intros [file conn auto init]. simpl. intros -> ->.
  repeat split.
Qed.

Lemma initialize_closed_connection_only_connects_witness :
  _conn (mkDatabaseConnection empty_database None false false) = None /\
  _auto_initialize (mkDatabaseConnection empty_database None false false)
  = false /\
  has_schema
    (content (after initialize
                (mkDatabaseConnection empty_database None false false)))
  = false /\
  has_schema
    (content (after initialize
                (after initialize
                   (mkDatabaseConnection empty_database None false false))))
  = true.
Proof.
  split; [reflexivity|]. split; [reflexivity|].
  destruct (initialize_closed_connection_only_connects
              (mkDatabaseConnection empty_database None false false)
              eq_refl eq_refl) as (_ & _ & H1 & _ & _ & H2 & _).
  split; [now rewrite H1 | now rewrite H2].
Defined.

(* ===================================================================== *)
(** * [initialize_schema] *)
(* ===================================================================== *)

Section InsertOrIgnore.
Context {Row : Type}.
Variable insert : Database -> Row -> Database.
Variable present : Row -> Database -> bool.
Hypothesis insert_present_noop :
  forall db r, present r db = true -> insert db r = db.
Hypothesis insert_makes_present :
  forall db r, present r (insert db r) = true.
Hypothesis insert_keeps_present :
  forall db r r', present r' db = true -> present r' (insert db r) = true.




Lemma fold_invariant (I : Database -> Prop) rows db :
  (forall db r, I db -> I (insert db r)) ->
  I db -> I (fold_left insert rows db).
Proof.
  intros Hstep. revert db.
  induction rows as [|x rows IH]; simpl; intros db H; auto.
Qed.

End InsertOrIgnore.

Lemma grows_refl db : grows db db.
Proof.
  repeat split; try (exists []; now rewrite app_nil_r).
Qed.

Lemma grows_trans db1 db2 db3 : grows db1 db2 -> grows db2 db3 -> grows db1 db3.
Proof.
  intros ((m1 & H1) & (n1 & G1) & A1 & B1 & C1 & D1 & E1 & F1)
         ((m2 & H2) & (n2 & G2) & A2 & B2 & C2 & D2 & E2 & F2).
  repeat split; try congruence.
  - exists (m1 ++ m2)%list. now rewrite H2, H1, app_assoc.
  - exists (n1 ++ n2)%list. now rewrite G2, G1, app_assoc.
Qed.


(* identifier types *)




Lemma insert_type_grows db r :
  grows db (insert_or_ignore_identifier_type db r).
Proof.
  unfold insert_or_ignore_identifier_type.
  destruct (existsb _ (identifier_types db)); [apply grows_refl|].
  repeat split; simpl; eauto. exists []. now rewrite app_nil_r.
Qed.

(* data sources *)




Lemma insert_source_grows db r :
  grows db (insert_or_ignore_data_source db r).
Proof.
  destruct r as [[[code stype] descr] prio].
  unfold insert_or_ignore_data_source.
  destruct (existsb _ (data_sources db)); [apply grows_refl|].
  repeat split; simpl; eauto. exists []. now rewrite app_nil_r.
Qed.




Lemma initialize_schema_grows db : grows db (initialize_schema db).
Proof.
  unfold initialize_schema.
  apply (fold_invariant insert_or_ignore_data_source (grows db)).
  { intros d r H. eapply grows_trans; [exact H | apply insert_source_grows]. }
  apply (fold_invariant insert_or_ignore_identifier_type (grows db)).
  { intros d r H. eapply grows_trans; [exact H | apply insert_type_grows]. }
  repeat split; try (exists []; now rewrite app_nil_r).
Qed.








Lemma insert_type_keeps_keys db r :
  reference_keys db -> reference_keys (insert_or_ignore_identifier_type db r).
Proof.
  unfold insert_or_ignore_identifier_type.
  destruct (existsb _ (identifier_types db)) eqn:H; [auto|].
  intros (Ht & Hs & Hc). split; [|split]; simpl; auto.
  rewrite map_app. apply NoDup_app; [exact Ht | repeat constructor; auto|].
  intros code Hin [<- | []].
  apply in_map_iff in Hin as (t & Heq & Hin).
  assert (Hex : existsb (fun t => String.eqb (type_code t) (type_code r))
                  (identifier_types db) = true).
  { apply existsb_exists. exists t. split; [exact Hin|].
    now apply String.eqb_eq. }
  congruence.
Qed.

Lemma insert_source_keeps_keys db r :
  reference_keys db -> reference_keys (insert_or_ignore_data_source db r).
Proof.
  destruct r as [[[code stype] descr] prio].
  unfold insert_or_ignore_data_source.
  destruct (existsb _ (data_sources db)) eqn:H; [auto|].
  intros (Ht & Hs & Hc). split; [|split]; simpl; auto.
  - rewrite map_app. apply NoDup_app; [exact Hs | repeat constructor; auto|].
    intros x Hin [<- | []].
    destruct (next_rowid_above (seq_data_sources db)
                (map source_id (data_sources db))) as [_ Habove].
    specialize (Habove _ Hin). simpl in Habove. lia.
  - rewrite map_app. apply NoDup_app; [exact Hc | repeat constructor; auto|].
    intros x Hin [<- | []].
    apply in_map_iff in Hin as (s & Heq & Hin).
    assert (Hex : existsb (fun s => String.eqb (source_code s) code)
                    (data_sources db) = true).
    { apply existsb_exists. exists s. split; [exact Hin|].
      now apply String.eqb_eq. }
    congruence.
Qed.

(** X14.  [initialize_schema] keeps the keys of the reference tables: if
    the type codes, the source ids and the source codes are each free of
    duplicates before, they are so afterwards (a default is inserted only
    when its code is absent, under an id above every id in use). *)
Theorem initialize_schema_keeps_keys :
  forall db : Database,
  reference_keys db -> reference_keys (initialize_schema db).
Proof.
  intros db H. unfold initialize_schema.
  apply (fold_invariant insert_or_ignore_data_source reference_keys).
  { intros d r. apply insert_source_keeps_keys. }
  apply (fold_invariant insert_or_ignore_identifier_type reference_keys).
  { intros d r. apply insert_type_keeps_keys. }
  exact H.
Qed.

Lemma initialize_schema_keeps_keys_witness :
  reference_keys empty_database /\
  reference_keys (initialize_schema empty_database).
Proof.
  assert (H : reference_keys empty_database)
    by (repeat split; constructor).
  split; [exact H|].
  exact (initialize_schema_keeps_keys empty_database H).
Defined.

(** A source an administrator has deactivated and demoted stays so when
    the schema is initialised again. *)
Example initialize_schema_does_not_overwrite :
  data_sources
    (initialize_schema
       (with_data_sources
          [mkDataSource 1 "YFINANCE" "API" None 999 0] 1 seeded))
  = [ mkDataSource 1 "YFINANCE" "API" None 999 0;
      mkDataSource 2 "EXCEL_IMPORT" "FILE" (Some "Excel file import") 50 1;
      mkDataSource 3 "MANUAL_ENTRY" "MANUAL" (Some "Manual data entry") 100 1;
      mkDataSource 4 "DERIVED_CALC" "DERIVED"
        (Some "Calculated/derived values") 200 1 ].
Proof. reflexivity. Qed.

(* ===================================================================== *)
(** * The write paths leave nothing pending *)
(* ===================================================================== *)

Lemma after_bind {A B : Type} (m : M A) (k : A -> M B) c :
  after (bind m k) c
  = match m c with
    | (Return a, c1) => after (k a) c1
    | (Raise e, c1) => c1
    end.
Proof. unfold after, bind. now destruct (m c) as [[a|e] c1]. Qed.

Lemma connect_clean c : clean c -> clean (after connect c).
Proof.
  unfold clean, content, after, connect, initialize_open.
  destruct c as [file [seen|] auto init];
    cbn [_conn db_file _auto_initialize _initialized snd]; [auto|].
  intros _.
  destruct (auto && negb init);
    cbn [_conn db_file _auto_initialize _initialized snd]; reflexivity.
Qed.

Lemma execute_leaves_open sql c : is_connected (after (execute sql) c) = true.
Proof.
  pose proof (connect_is_connected c) as Hc.
  unfold after in *. unfold execute, bind. rewrite (connect_result c).
  unfold after, is_connected in *.
  destruct (_conn (snd (connect c))) as [seen|] eqn:H; [|discriminate].
  destruct (run_statement sql seen) as [e | [cur seen']]; simpl;
    [now rewrite H | reflexivity].
Qed.

Lemma execute_raised sql c e :
  fst (execute sql c) = Raise e -> after (execute sql) c = after connect c.
Proof.
  unfold after, execute, bind. rewrite (connect_result c). unfold after.
  destruct (_conn (snd (connect c))) as [seen|]; [|reflexivity].
  destruct (run_statement sql seen) as [e0 | [cur seen']]; simpl;
    [reflexivity | discriminate].
Qed.

Lemma commit_clean c :
  is_connected c = true -> clean (after commit c).
Proof.
  unfold is_connected, clean, content, after, commit.
  destruct (_conn c); [reflexivity | discriminate].
Qed.

Lemma execute_commit_clean sql c :
  clean c -> clean (after (execute sql ;;; commit) c).
Proof.
  intros Hc. rewrite after_bind.
  destruct (execute sql c) as [[cur|e] c1] eqn:E.
  - apply commit_clean.
    pose proof (execute_leaves_open sql c) as H. unfold after in H.
    now rewrite E in H.
  - pose proof (execute_raised sql c e) as H. unfold after in H.
    rewrite E in H. simpl in H. rewrite H by reflexivity.
    now apply connect_clean.
Qed.

Lemma create_clean nm descr aclass curr c :
  clean c -> clean (after (create nm descr aclass curr) c).
Proof.
  intros Hc.
  pose proof (execute_commit_clean (InsertSecurity nm descr aclass curr) c Hc)
    as H.
  rewrite after_bind in H. unfold create. rewrite after_bind.
  destruct (execute (InsertSecurity nm descr aclass curr) c)
    as [[cur|e] c1]; [|exact H].
  rewrite after_bind. unfold after in *.
  destruct (commit c1) as [[[]|e] c2]; exact H.
Qed.

Lemma fetchone_after sql c :
  is_select sql = true -> after (fetchone sql) c = after connect c.
Proof.
  intros Hsel.
  assert (H : fetchone sql c = fetchone sql (after connect c))
    by (unfold fetchone, bind; now rewrite execute_connect).
  rewrite (f_equal snd H : after (fetchone sql) c
                           = after (fetchone sql) (after connect c)).
  apply fetchone_select_open; [exact Hsel | apply connect_is_connected].
Qed.

Lemma add_identifier_clean sid ty value primary vfrom vto c :
  clean c -> clean (after (add_identifier sid ty value primary vfrom vto) c).
Proof.
  intros Hc. unfold add_identifier. rewrite after_bind.
  pose proof (fetchone_after (SelectDuplicate ty value vfrom) c eq_refl) as H.
  unfold after at 1 in H.
  destruct (fetchone (SelectDuplicate ty value vfrom) c) as [[existing|e] c1];
    simpl in H; subst c1; [|now apply connect_clean].
  assert (Hc1 : clean (after connect c)) by now apply connect_clean.
  destruct existing as [row|];
    [destruct (negb (row_security_id row =? sid)); [exact Hc1|]|];
    now apply execute_commit_clean.
Qed.

Lemma resolve_after today value ty as_of c :
  after (resolve today value ty as_of) c = after connect c.
Proof.
  rewrite (f_equal snd (resolve_connect today value ty as_of c)
           : after (resolve today value ty as_of) c
             = after (resolve today value ty as_of) (after connect c)).
  apply resolve_open, connect_is_connected.
Qed.

(** X15.  The write paths of the repository and of the resolver leave
    nothing pending: on a connection, open or closed, that has no
    uncommitted write, [create], [add_identifier] and [resolve_or_create]
    end with no uncommitted write, whether they return or raise. *)
Theorem write_paths_leave_nothing_pending :
  forall (today : date) (sid : SecurityId) (ty : IdentifierType)
         (value nm : string) (primary : bool) (vfrom vto : option date)
         (descr aclass curr : option string) (c : DatabaseConnection),
  clean c ->
  clean (after (create nm descr aclass curr) c) /\
  clean (after (add_identifier sid ty value primary vfrom vto) c) /\
  clean (after (resolve_or_create today value ty nm descr aclass curr) c).
Proof.
  intros today sid ty value nm primary vfrom vto descr aclass curr c Hc.
  split; [now apply create_clean|]. split; [now apply add_identifier_clean|].
  unfold resolve_or_create. rewrite after_bind.
  pose proof (resolve_after today value ty None c) as H.
  unfold after at 1 in H.
  destruct (resolve today value ty None c) as [[existing|e] c1];
    simpl in H; subst c1; [|now apply connect_clean].
  assert (Hc1 : clean (after connect c)) by now apply connect_clean.
  destruct existing as [found|]; [exact Hc1|].
  destruct nm as [|ch nm]; [exact Hc1|].
  rewrite after_bind.
  pose proof (create_clean (String ch nm) descr aclass curr _ Hc1) as Hcr.
  unfold after at 1 in Hcr.
  destruct (create (String ch nm) descr aclass curr (after connect c))
    as [[new_id|e] c2]; [|exact Hcr].
  simpl in Hcr. rewrite after_bind.
  pose proof (add_identifier_clean new_id ty value false None None _ Hcr)
    as Hadd.
  unfold after at 1 in Hadd.
  destruct (add_identifier new_id ty value false None None c2)
    as [[[]|e] c3]; exact Hadd.
Qed.

Lemma write_paths_leave_nothing_pending_witness :
  clean expired_code /\
  clean (after (resolve_or_create 20240601 "7203" JP_CODE "Toyota Motor Corp"
                  None None None) expired_code).
Proof.
  assert (H : clean expired_code) by reflexivity.
  split; [exact H|].
  exact (proj2 (proj2 (write_paths_leave_nothing_pending 20240601 0 JP_CODE
                         "7203" "Toyota Motor Corp" false None None
                         None None None expired_code H))).
Defined.

(* ===================================================================== *)
(** * The write paths keep the constraints of the tables *)
(* ===================================================================== *)

Lemma grows_constraints db db' :
  grows db db' -> constraints_hold db -> constraints_hold db'.
Proof.
  intros (_ & _ & Hs & _ & Hi & _) (Hr & Hu & Ht).
  unfold constraints_hold, referential_integrity, unique_security_ids,
    unique_triples, dated_triples in *.
  rewrite Hs, Hi. auto.
Qed.

Lemma insert_security_constraints nm descr aclass curr db :
  constraints_hold db ->
  constraints_hold (snd (insert_security nm descr aclass curr db)).
Proof.
  intros (Hr & Hu & Ht). unfold insert_security. cbn [snd].
  destruct (next_rowid_above (seq_securities db)
              (map security_id (securities db))) as [_ Hids].
  split; [|split].
  - intros r Hin. destruct (Hr r Hin) as (s & Hs & Heq).
    exists s. split; [|exact Heq].
    cbn [securities with_securities]. apply in_or_app. now left.
  - unfold unique_security_ids in *. cbn [securities with_securities].
    rewrite map_app. apply NoDup_app; [exact Hu | repeat constructor; auto|].
    intros x Hx [<- | []]. specialize (Hids _ Hx). cbn in Hids. lia.
  - exact Ht.
Qed.

Lemma insert_identifier_constraints sid ty value primary vfrom vto db cur db' :
  constraints_hold db ->
  insert_identifier sid ty value primary vfrom vto db = inr (cur, db') ->
  constraints_hold db'.
Proof.
  intros (Hr & Hu & Ht). unfold insert_identifier.
  destruct (existsb (unique_collision ty value vfrom)
              (security_identifiers db)) eqn:Hcol; [discriminate|].
  destruct (existsb (fun s => security_id s =? sid) (securities db))
    eqn:Hsec; [|discriminate].
  cbn [negb].
  destruct (negb (existsb _ (identifier_types db))); [discriminate|].
  intros [= _ <-].
  split; [|split].
  - intros r Hin.
    cbn [security_identifiers with_security_identifiers] in Hin.
    cbn [securities with_security_identifiers].
    apply in_app_or in Hin as [Hin | [<- | []]].
    + exact (Hr r Hin).
    + apply existsb_exists in Hsec as (s & Hs & Heq).
      apply Z.eqb_eq in Heq. exists s. split; [exact Hs | exact Heq].
  - exact Hu.
  - unfold unique_triples, dated_triples in *.
    cbn [security_identifiers with_security_identifiers].
    rewrite filter_app, map_app. apply NoDup_app; [exact Ht | |].
    + cbn. destruct vfrom; cbn; repeat constructor; auto.
    + intros x Hx Hy. cbn in Hy.
      destruct vfrom as [f|]; cbn in Hy; [|exact Hy].
      destruct Hy as [<- | []].
      apply in_map_iff in Hx as (r & Heq & Hin).
      apply filter_In in Hin as [Hin _].
      injection Heq as Hty Hval Hvf.
      assert (Hex : existsb (unique_collision ty value (Some f))
                      (security_identifiers db) = true).
      { apply existsb_exists. exists r. split; [exact Hin|].
        unfold unique_collision, same_identifier.
        now rewrite Hty, Hval, Hvf, !String.eqb_refl, Z.eqb_refl. }
      congruence.
Qed.

Lemma run_statement_constraints sql db cur db' :
  constraints_hold db ->
  run_statement sql db = inr (cur, db') -> constraints_hold db'.
Proof.
  intros H.
  destruct sql; cbn [run_statement]; destruct (has_schema db);
    try discriminate.
  - now intros [= _ <-].
  - now intros [= _ <-].
  - intros Heq.
    assert (H2 : snd (insert_security nm descr aclass curr db) = db')
      by (injection Heq as _ Heq; exact Heq).
    rewrite <- H2. now apply insert_security_constraints.
  - now apply insert_identifier_constraints.
Qed.

Lemma bind_constraints {A B : Type} (m : M A) (k : A -> M B) c :
  constraints_hold (content (after m c)) ->
  (forall a c1, constraints_hold (content c1) ->
                constraints_hold (content (after (k a) c1))) ->
  constraints_hold (content (after (bind m k) c)).
Proof.
  intros Hm Hk. rewrite after_bind. unfold after in Hm.
  destruct (m c) as [[a|e] c1]; cbn [snd] in Hm; auto.
Qed.

Lemma connect_constraints c :
  constraints_hold (content c) ->
  constraints_hold (content (after connect c)).
Proof.
  unfold content, after, connect, initialize_open.
  destruct c as [file [seen|] auto init];
    cbn [_conn db_file _auto_initialize _initialized snd]; [auto|].
  intros H.
  destruct (auto && negb init);
    cbn [_conn db_file _auto_initialize _initialized snd]; [|exact H].
  exact (grows_constraints _ _ (initialize_schema_grows file) H).
Qed.

Lemma execute_constraints sql c :
  constraints_hold (content c) ->
  constraints_hold (content (after (execute sql) c)).
Proof.
  intros H. unfold execute.
  apply bind_constraints; [now apply connect_constraints|].
  intros _ c1 H1. unfold after, content in *.
  destruct (_conn c1) as [seen|] eqn:Hc; [|cbn [snd]; now rewrite Hc].
  destruct (run_statement sql seen) as [e | [cur seen']] eqn:Hrun;
    cbn [snd _conn].
  - now rewrite Hc.
  - eapply run_statement_constraints; eauto.
Qed.

Lemma commit_content c : content (after commit c) = content c.
Proof.
  unfold content, after, commit.
  destruct (_conn c) eqn:H; cbn [snd _conn]; [reflexivity | now rewrite H].
Qed.

Lemma create_constraints nm descr aclass curr c :
  constraints_hold (content c) ->
  constraints_hold (content (after (create nm descr aclass curr) c)).
Proof.
  intros H. unfold create.
  apply bind_constraints; [now apply execute_constraints|].
  intros cur c1 H1.
  apply bind_constraints; [now rewrite commit_content|].
  intros _ c2 H2. exact H2.
Qed.

Lemma fetchone_constraints sql c :
  constraints_hold (content c) ->
  constraints_hold (content (after (fetchone sql) c)).
Proof.
  intros H. unfold fetchone.
  apply bind_constraints; [now apply execute_constraints|].
  intros cur c1 H1. exact H1.
Qed.

Lemma add_identifier_constraints sid ty value primary vfrom vto c :
  constraints_hold (content c) ->
  constraints_hold
    (content (after (add_identifier sid ty value primary vfrom vto) c)).
Proof.
  intros H. unfold add_identifier.
  apply bind_constraints; [now apply fetchone_constraints|].
  intros existing c1 H1.
  assert (Hins :
    constraints_hold
      (content
         (after (execute (InsertIdentifier sid ty value
                            (if primary then 1 else 0) vfrom vto) ;;;
                 commit) c1))).
  { apply bind_constraints; [now apply execute_constraints|].
    intros _ c2 H2. now rewrite commit_content. }
  destruct existing as [row|];
    [destruct (negb (row_security_id row =? sid)); [exact H1|]|];
    exact Hins.
Qed.

Lemma resolve_constraints today value ty as_of c :
  constraints_hold (content c) ->
  constraints_hold (content (after (resolve today value ty as_of) c)).
Proof.
  intros H. unfold resolve.
  apply bind_constraints; [now apply fetchone_constraints|].
  intros row c1 H1. destruct row; exact H1.
Qed.

(** X16.  The write paths keep the constraints the schema declares on
    the securities master: if every association refers to a security
    that exists, no two securities share an id and no two associations
    share a dated (type, value, valid_from), then the same holds after
    [create], [add_identifier] and [resolve_or_create], on an open or a
    closed connection, whether the call returns or raises. *)
Theorem write_paths_keep_constraints :
  forall (today : date) (sid : SecurityId) (ty : IdentifierType)
         (value nm : string) (primary : bool) (vfrom vto : option date)
         (descr aclass curr : option string) (c : DatabaseConnection),
  constraints_hold (content c) ->
  constraints_hold (content (after (create nm descr aclass curr) c)) /\
  constraints_hold
    (content (after (add_identifier sid ty value primary vfrom vto) c)) /\
  constraints_hold
    (content
       (after (resolve_or_create today value ty nm descr aclass curr) c)).
Proof.
  intros today sid ty value nm primary vfrom vto descr aclass curr c H.
  split; [now apply create_constraints|].
  split; [now apply add_identifier_constraints|].
  unfold resolve_or_create.
  apply bind_constraints; [now apply resolve_constraints|].
  intros existing c1 H1. destruct existing as [found|]; [exact H1|].
  destruct nm as [|ch nm]; [exact H1|].
  apply bind_constraints; [now apply create_constraints|].
  intros new_id c2 H2.
  apply bind_constraints; [now apply add_identifier_constraints|].
  intros _ c3 H3. exact H3.
Qed.

Lemma constraints_expired_code : constraints_hold (content expired_code).
Proof.
  split; [|split].
  - intros r Hin. vm_compute in Hin. destruct Hin as [<- | []].
    exists (mkSecurity 1 "Old Holder" None None None).
    split; [left; reflexivity | reflexivity].
  - unfold unique_security_ids. vm_compute. repeat constructor. intros [].
  - unfold unique_triples. vm_compute. constructor.
Qed.

Lemma write_paths_keep_constraints_witness :
  constraints_hold (content expired_code) /\
  constraints_hold
    (content
       (after (resolve_or_create 20240601 "7203" JP_CODE "Toyota Motor Corp"
                 None None None) expired_code)).
Proof.
  split; [exact constraints_expired_code|].
  exact (proj2 (proj2 (write_paths_keep_constraints 20240601 0 JP_CODE
                         "7203" "Toyota Motor Corp" false None None
                         None None None expired_code
                         constraints_expired_code))).
Defined.

(* ===================================================================== *)
(** * [resolve_or_create]: the creation path, case by case *)
(* ===================================================================== *)










(** X19.  Get-or-insert, when the call returns: the id it returns is the
    one [resolve] finds for (type, value) on the same day in the
    connection it leaves; a further call for (type, value) on that day,
    whatever name and attributes it is given (an empty name included),
    returns the same id and changes nothing; and when [resolve] already
    found an id before the call, that id was returned and nothing was
    written. *)
Theorem resolve_or_create_get_or_insert :
  forall (today : date) (value : string) (ty : IdentifierType) (nm : string)
         (descr aclass curr : option string) (c c' : DatabaseConnection)
         (sid : SecurityId),
  ready c = true ->
  resolve_or_create today value ty nm descr aclass curr c = (Return sid, c') ->
  ready c' = true /\
  fst (resolve today value ty None c') = Return (Some sid) /\
  (forall (nm' : string) (descr' aclass' curr' : option string),
     resolve_or_create today value ty nm' descr' aclass' curr' c'
     = (Return sid, c')) /\
  (forall found,
     fst (resolve today value ty None c) = Return (Some found) ->
     sid = found /\ c' = c).
Proof.
  intros today value ty nm descr aclass curr c c' sid Hr Hcall.
  destruct (resolve_or_create_round_trip _ _ _ _ _ _ _ _ _ _ Hr Hcall)
    as (Hr' & Hres).
  split; [exact Hr'|]. split; [exact Hres|]. split.
  - intros nm' descr' aclass' curr'.
    exact (resolve_or_create_again _ _ _ _ _ _ _ _ _ _ _ _ _ _ Hr Hcall).
  - intros found Hfound.
    rewrite (resolve_or_create_existing _ _ _ nm descr aclass curr _ _
               (ready_connected _ Hr) Hfound) in Hcall.
    injection Hcall as <- <-. split; reflexivity.
Qed.

Lemma resolve_or_create_get_or_insert_witness :
  ready fresh_connection = true /\
  fst (resolve 20240601 "AAPL" TICKER_YAHOO None
         (after (resolve_or_create 20240601 "AAPL" TICKER_YAHOO "Apple Inc"
                   None None (Some "USD")) fresh_connection))
  = Return (Some 1).
Proof.
  split; [reflexivity|].
  exact (proj1 (proj2
    (resolve_or_create_get_or_insert 20240601 "AAPL" TICKER_YAHOO "Apple Inc"
       None None (Some "USD") fresh_connection
       (after (resolve_or_create 20240601 "AAPL" TICKER_YAHOO "Apple Inc"
                 None None (Some "USD")) fresh_connection)
       1 eq_refl eq_refl))).
Defined.

(* ===================================================================== *)
(** * [resolve_or_raise] *)
(* ===================================================================== *)

(** X20.  On an open connection [resolve_or_raise] leaves the connection
    as it is and: with the tables in place, it raises
    IdentifierNotFoundError(type, value), a DatabaseUtilsError and no
    DatabaseError, when no association for (type, value) contains the
    date, and otherwise returns the security of such an association with
    the latest [valid_from]; before the tables exist it raises the
    DatabaseError for the missing table. *)
Theorem resolve_or_raise_outcomes :
  forall (today : date) (value : string) (ty : IdentifierType)
         (as_of : option date) (c : DatabaseConnection),
  is_connected c = true ->
  (ready c = true ->
   (forall r, ~ candidate ty value (effective_date today as_of)
                  (content c) r) ->
   resolve_or_raise today value ty as_of c
   = (Raise (IdentifierNotFoundError ty value), c)) /\
  (ready c = true ->
   (exists r, candidate ty value (effective_date today as_of)
                (content c) r) ->
   exists r,
     candidate ty value (effective_date today as_of) (content c) r /\
     (forall r',
        candidate ty value (effective_date today as_of) (content c) r' ->
        valid_from_le (valid_from r') (valid_from r)) /\
     resolve_or_raise today value ty as_of c
     = (Return (si_security_id r), c)) /\
  (ready c = false ->
   resolve_or_raise today value ty as_of c
   = (Raise (DatabaseError (NoSuchTable "security_identifiers")), c)) /\
  isinstance (IdentifierNotFoundError ty value) DatabaseUtilsError_cls = true /\
  isinstance (IdentifierNotFoundError ty value) DatabaseError_cls = false.
Proof.
  intros today value ty as_of c Hopen.
  unfold is_connected in Hopen.
  destruct (_conn c) as [seen|] eqn:Hc; [clear Hopen | discriminate].
  unfold ready, content. rewrite Hc.
  set (d := effective_date today as_of).
  split; [|split; [|split; [|split; reflexivity]]].
  - intros Hs Hnone. unfold resolve_or_raise, bind.
    rewrite (resolve_ready _ _ _ _ _ _ Hc Hs). fold d.
    assert (He : resolve_candidates ty value d seen = []).
    { destruct (resolve_candidates ty value d seen) as [|r l] eqn:E;
        [reflexivity|].
      exfalso. apply (Hnone r), in_resolve_candidates. rewrite E. now left. }
    apply resolve_result_none in He. now rewrite He.
  - intros Hs (r0 & Hr0). unfold resolve_or_raise, bind.
    rewrite (resolve_ready _ _ _ _ _ _ Hc Hs). fold d.
    unfold select_resolve.
    destruct (limit_1_cases
                (order_by valid_from_desc_nulls_last
                   (resolve_candidates ty value d seen))) as [He | [m Hm]].
    + exfalso. apply limit_1_order_by_empty in He.
      apply in_resolve_candidates in Hr0. now rewrite He in Hr0.
    + rewrite Hm.
      destruct (limit_1_order_by_head _ valid_from_desc_asym
                  valid_from_desc_negtrans _ _ Hm) as [Hin Hmax].
      exists m. split; [now apply in_resolve_candidates|].
      split; [|reflexivity].
      intros r' Hr'. apply not_before_valid_from_le, Hmax.
      now apply in_resolve_candidates.
  - intros Hs. unfold resolve_or_raise, resolve, bind, fetchone, bind.
    rewrite (execute_open _ _ _ Hc). cbn [run_statement]. rewrite Hs.
    reflexivity.
Qed.

Lemma resolve_or_raise_outcomes_witness :
  is_connected expired_code = true /\
  resolve_or_raise 20240601 "7203" JP_CODE None expired_code
  = (Raise (IdentifierNotFoundError JP_CODE "7203"), expired_code).
Proof.
  split; [reflexivity|].
  apply (proj1 (resolve_or_raise_outcomes 20240601 "7203" JP_CODE None
                  expired_code eq_refl)); [reflexivity|].
  intros r (Hin & _ & _ & Hv). vm_compute in Hin.
  destruct Hin as [<- | []].
  destruct Hv as [_ Hto]. specialize (Hto 20231231 eq_refl).
  unfold effective_date in Hto. lia.
Defined.
